(** * Roxiler transaction dashboard backend: [backend/server.js]

    A shallow embedding of the Express handlers of [server.js] and of the
    SQL statements they send to MySQL, followed by the properties of the
    query layer.

    Conventions of the embedding.
    - A [DECIMAL(10,2)] price is carried as its number of hundredths, an
      integer of [Z]; [SUM(price)] and [parseFloat] of its text are carried
      the same way (JavaScript numbers are taken in the range where double
      arithmetic on them is exact).
    - Strings are ASCII.  The table is created without a [COLLATE] clause,
      so every comparison on its text columns ([LIKE], [GROUP BY],
      [ORDER BY]) uses the server's default collation, which ignores letter
      case; the collation is modelled as ASCII case folding.
    - The handlers run in a small state-and-exception monad over a [world]
      made of the table, the availability of the database, the remote HTTP
      peers and the list of effects performed so far. *)

From Stdlib Require Import ZArith List String Ascii Bool Lia.
From Stdlib Require Import DecimalString Permutation Sorted.
Import ListNotations.

Local Open Scope string_scope.
Local Open Scope Z_scope.

(** ** Data model *)

(** [DATETIME] column value. *)
Record datetime := mkDatetime {
  dt_year : Z; dt_month : Z; dt_day : Z;
  dt_hour : Z; dt_minute : Z; dt_second : Z }.

(** A row of table [transactions] (lines 30-40 of the source). *)
Record row := mkRow {
  id : Z;
  title : string;
  description : string;
  price : Z;            (* DECIMAL(10,2), in hundredths *)
  category : string;
  image : string;
  sold : bool;
  date_of_sale : datetime }.

(** [const months = [...]] *)
Definition months : list string :=
  [ "January"; "February"; "March"; "April"; "May"; "June";
    "July"; "August"; "September"; "October"; "November"; "December" ].

(** ** Strings, collation and [LIKE] *)

Module Text.

Definition chars (s : string) : list ascii := list_ascii_of_string s.

(** ASCII case folding: the collation's notion of a letter. *)
Definition lower (c : ascii) : ascii :=
  let n := nat_of_ascii c in
  if ((65 <=? n) && (n <=? 90))%nat then ascii_of_nat (n + 32) else c.

(** Equality of two characters under the collation. *)
Definition ceq (a b : ascii) : bool := Ascii.eqb (lower a) (lower b).

Definition fold_case (s : string) : string :=
  string_of_list_ascii (map lower (chars s)).

(** Equality and order of two strings under the collation. *)
Definition coll_eqb (a b : string) : bool :=
  String.eqb (fold_case a) (fold_case b).

Definition coll_leb (a b : string) : bool :=
  String.leb (fold_case a) (fold_case b).

(** JavaScript white space, among ASCII characters: TAB, LF, VT, FF, CR
    and SPACE. *)
Definition is_space (c : ascii) : bool :=
  let n := nat_of_ascii c in
  (((9 <=? n) && (n <=? 13)) || (n =? 32))%nat.

Fixpoint drop_space (l : list ascii) : list ascii :=
  match l with
  | c :: l' => if is_space c then drop_space l' else l
  | [] => []
  end.

(** [String.prototype.trim] *)
Definition trim (s : string) : string :=
  string_of_list_ascii
    (rev (drop_space (rev (drop_space (chars s))))).

(** The three characters [LIKE] gives a meaning to: the wildcards [%]
    and [_] and the escape character [\]. *)
Definition is_percent (c : ascii) : bool := Ascii.eqb c "%".
Definition is_underscore (c : ascii) : bool := Ascii.eqb c "_".
Definition is_backslash (c : ascii) : bool := Ascii.eqb c "\".


(** MySQL's [subject LIKE pattern] with the default escape character:
    [%] matches any run of characters, [_] any one character, [\x] the
    character [x] itself (a final lone [\] stands for itself), and any
    other character matches itself under the collation. *)
Fixpoint like_chars (pat subject : list ascii) : bool :=
  match pat with
  | [] => match subject with [] => true | _ :: _ => false end
  | p :: pat' =>
      if is_percent p then
        (fix any_run (s : list ascii) : bool :=
           like_chars pat' s ||
           match s with [] => false | _ :: s' => any_run s' end) subject
      else if is_underscore p then
        match subject with [] => false | _ :: s' => like_chars pat' s' end
      else if is_backslash p then
        match pat' with
        | [] =>
            match subject with
            | [] => false
            | c :: s' => ceq p c && like_chars pat' s'
            end
        | q :: pat'' =>
            match subject with
            | [] => false
            | c :: s' => ceq q c && like_chars pat'' s'
            end
        end
      else
        match subject with
        | [] => false
        | c :: s' => ceq p c && like_chars pat' s'
        end
  end.

Definition like (subject pat : string) : bool :=
  like_chars (chars pat) (chars subject).

(** Substring search under the collation, written without [LIKE]: the
    needle is a prefix, up to case, of some suffix of the subject. *)
Fixpoint ci_prefix (needle subject : list ascii) : bool :=
  match needle with
  | [] => true
  | n :: needle' =>
      match subject with
      | [] => false
      | c :: s' => ceq n c && ci_prefix needle' s'
      end
  end.

Fixpoint ci_infix (needle subject : list ascii) : bool :=
  ci_prefix needle subject ||
  match subject with [] => false | _ :: s' => ci_infix needle s' end.


(** Decimal text of an integer, as [String(n)] or a template literal
    prints it. *)
Definition show_Z (z : Z) : string :=
  NilZero.string_of_int (Z.to_int z).

(** [CAST(price AS CHAR)] of a [DECIMAL(10,2)]: sign, integer part, a
    point and exactly two decimals. *)
Definition decimal_text (hundredths : Z) : string :=
  let a := Z.abs hundredths in
  let frac := a mod 100 in
  (if hundredths <? 0 then "-" else "") ++
  show_Z (a / 100) ++ "." ++
  show_Z (frac / 10) ++ show_Z (frac mod 10).

End Text.

(** ** JavaScript values of the handlers *)

(** A value of [req.query] as Express parses it: a string, an array
    ([?month=a&month=b]) or a nested object ([?month[a]=b]); an absent
    parameter is [undefined], here [None]. *)
#[warnings="-register-all"]
Inductive qval :=
| QStr (s : string)
| QArr (items : list qval)
| QObj (fields : list (string * qval)).

(** The query string of a request.  [search], when present, is a
    string.  [page] and [perPage], when present, are strings of decimal
    digits and are carried by their value: the handler only uses them
    through [Number], arithmetic and their text inside
    [LIMIT ... OFFSET ...], and a string of digits is never falsy.
    The value stands for the JavaScript number as long as it and the
    offset computed from it are below 2^53; beyond, [Number] rounds, a
    template literal may print an exponent and MySQL refuses a [LIMIT]
    over 2^64-1, so the statements about the numbers a paginated
    listing reports assume that range ([Spec.safe], [Spec.in_range]
    below). *)
Record query := mkQuery {
  q_month : option qval;
  q_search : option string;
  q_page : option N;
  q_perPage : option N }.

(** A JavaScript number that may fail to be an integer. *)
Inductive jsnum := JNum (z : Z) | JInfinity | JNaN.

Record stats := mkStats {
  totalSale : Z;        (* in hundredths *)
  soldItems : Z;
  notSoldItems : Z }.

(** One [{_id, count}] object of a chart. *)
Definition chart := list (string * Z).

Record listing := mkListing {
  transactions : list row;
  total : Z;
  page : Z;
  perPage : Z;
  totalPages : jsnum }.

(** Bodies sent by [res.send] / [res.json] and received by [axios.get]. *)
Inductive body :=
| BError (error : string) (details : option string)
| BListing (l : listing)
| BStats (s : stats)
| BChart (c : chart)
| BCombined (statistics barchart piechart : body)
| BDataset (items : list row).

Record response := mkResponse { status : Z; sent : body }.

(** What an HTTP GET comes back with. *)
Inductive http_result :=
| Http (code : Z) (data : body)
| NetFail (message : string).

(** ** The world and the monad of the handlers *)

Inductive effect :=
| Sql (statement : string)        (* a statement sent to MySQL *)
| HttpGet (url : string)          (* axios.get *)
| ConsoleLog (line : string)
| ConsoleError (line : string).

Record world := mkWorld {
  db_up : bool;                   (* MySQL reachable *)
  table : list row;               (* transactions, in scan order *)
  net : string -> http_result;    (* the remote hosts *)
  effects : list effect }.        (* performed so far, oldest first *)

Inductive completion (A : Type) :=
| Ok (a : A)
| Throw (message : string).
Arguments Ok {A} a.
Arguments Throw {A} message.

Definition M (A : Type) : Type := world -> completion A * world.

Definition ret {A} (a : A) : M A := fun w => (Ok a, w).

Definition bind {A B} (c : M A) (k : A -> M B) : M B :=
  fun w =>
    match c w with
    | (Ok a, w') => k a w'
    | (Throw e, w') => (Throw e, w')
    end.

Definition throw {A} (e : string) : M A := fun w => (Throw e, w).

(** [try { c } catch (err) { handler err }] *)
Definition try_catch {A} (c : M A) (handler : string -> M A) : M A :=
  fun w =>
    match c w with
    | (Ok a, w') => (Ok a, w')
    | (Throw e, w') => handler e w'
    end.

Declare Scope js_scope.
Delimit Scope js_scope with js.
Notation "x <- c ;; k" := (bind c (fun x => k))
  (at level 61, c at next level, right associativity) : js_scope.
Notation "' pat <- c ;; k" :=
  (bind c (fun x => match x with pat => k end))
  (at level 61, pat pattern, c at next level, right associativity) : js_scope.
Notation "c ;; k" := (bind c (fun _ => k))
  (at level 61, right associativity) : js_scope.
Local Open Scope js_scope.

Definition perform (e : effect) (w : world) : world :=
  mkWorld (db_up w) (table w) (net w) (effects w ++ [e])%list.

Definition set_table (t : list row) (w : world) : world :=
  mkWorld (db_up w) t (net w) (effects w).

Definition console_log (line : string) : M unit :=
  fun w => (Ok tt, perform (ConsoleLog line) w).

Definition console_error (line : string) : M unit :=
  fun w => (Ok tt, perform (ConsoleError line) w).

(** [await pool.query(sql, params)] and [await conn.query(sql, params)]:
    the statement reaches MySQL when the database is up, and either
    yields a result and the new table or raises. *)
Definition pool_query {A} (statement : string)
    (run : list row -> completion (A * list row)) : M A :=
  fun w =>
    let w1 := perform (Sql statement) w in
    if db_up w then
      match run (table w) with
      | Ok (a, t') => (Ok a, set_table t' w1)
      | Throw e => (Throw e, w1)
      end
    else (Throw "connect ECONNREFUSED", w1).

(** [await pool.getConnection()] *)
Definition get_connection : M unit :=
  fun w => if db_up w then (Ok tt, w) else (Throw "connect ECONNREFUSED", w).

(** [axios.get(url)]: the promise, settled.  It is rejected when the host
    cannot be reached and when the status is not 2xx. *)
Definition axios_get (url : string) : M (completion body) :=
  fun w =>
    let w1 := perform (HttpGet url) w in
    match net w url with
    | Http code data =>
        if (200 <=? code) && (code <? 300) then (Ok (Ok data), w1)
        else
          (Ok (Throw ("Request failed with status code "
                      ++ Text.show_Z code)), w1)
    | NetFail e => (Ok (Throw e), w1)
    end.

(** [await p] *)
Definition await {A} (p : completion A) : M A :=
  match p with Ok a => ret a | Throw e => throw e end.

(** [await Promise.all([p1, p2, p3])] *)
Definition await_all3 {A} (p1 p2 p3 : completion A) : M (A * A * A) :=
  a <- await p1 ;; b <- await p2 ;; c <- await p3 ;; ret (a, b, c).

(** ** The SQL statements *)

Module SQL.

(** [MONTH(date_of_sale) = ?] *)
Definition in_month (monthNum : Z) (r : row) : bool :=
  dt_month (date_of_sale r) =? monthNum.

(** [title LIKE ? OR description LIKE ? OR CAST(price AS CHAR) LIKE ?],
    the three parameters being the same pattern. *)
Definition matches (pat : string) (r : row) : bool :=
  Text.like (title r) pat || Text.like (description r) pat ||
  Text.like (Text.decimal_text (price r)) pat.

(** The [WHERE] clause shared by the listing and its count. *)
Definition where_ (monthNum : Z) (pat : option string) (r : row) : bool :=
  in_month monthNum r &&
  match pat with Some p => matches p r | None => true end.

(** [SELECT * FROM transactions WHERE ... [LIMIT l OFFSET o]].  MySQL
    rejects a negative [OFFSET] as a syntax error. *)
Definition select_rows (monthNum : Z) (pat : option string)
    (limit : option (Z * Z)) (t : list row)
    : completion (list row * list row) :=
  let hits := filter (where_ monthNum pat) t in
  match limit with
  | None => Ok (hits, t)
  | Some (l, o) =>
      if o <? 0 then Throw "You have an error in your SQL syntax"
      else Ok (firstn (Z.to_nat l) (skipn (Z.to_nat o) hits), t)
  end.

(** [SELECT COUNT( * ) as total FROM transactions WHERE ...] *)
Definition count_rows (monthNum : Z) (pat : option string) (t : list row)
    : completion (Z * list row) :=
  Ok (Z.of_nat (List.length (filter (where_ monthNum pat) t)), t).

(** [SUM(price)] over a set of rows: [NULL] when the set is empty. *)
Definition sum_price (rows : list row) : option Z :=
  match rows with
  | [] => None
  | _ :: _ => Some (fold_right (fun r acc => price r + acc) 0 rows)
  end.

(** [WHERE MONTH(date_of_sale) = ? AND sold = TRUE] (or [FALSE]) *)
Definition sold_is (flag : bool) (monthNum : Z) (r : row) : bool :=
  in_month monthNum r && Bool.eqb (sold r) flag.

(** [SELECT SUM(price) as total FROM transactions WHERE ... AND sold = TRUE] *)
Definition sum_sold (monthNum : Z) (t : list row)
    : completion (option Z * list row) :=
  Ok (sum_price (filter (sold_is true monthNum) t), t).

(** [SELECT COUNT( * ) as count FROM transactions WHERE ... AND sold = flag] *)
Definition count_sold (flag : bool) (monthNum : Z) (t : list row)
    : completion (Z * list row) :=
  Ok (Z.of_nat (List.length (filter (sold_is flag monthNum) t)), t).

(** [price BETWEEN lo AND hi], the bounds being whole numbers. *)
Definition between (lo hi : Z) (r : row) : bool :=
  (lo * 100 <=? price r) && (price r <=? hi * 100).

(** The [CASE] expression of the bar chart. *)
Definition price_range (r : row) : string :=
  if between 0 100 r then "0-100"
  else if between 101 200 r then "101-200"
  else if between 201 300 r then "201-300"
  else if between 301 400 r then "301-400"
  else if between 401 500 r then "401-500"
  else if between 501 600 r then "501-600"
  else if between 601 700 r then "601-700"
  else if between 701 800 r then "701-800"
  else if between 801 900 r then "801-900"
  else "901-above".

(** [GROUP BY key] with [COUNT( * )]: a row joins the group whose key
    equals its own under the collation, or opens a new group, which keeps
    that row's spelling of the key. *)
Fixpoint bump (key : string) (groups : chart) : chart :=
  match groups with
  | [] => [(key, 1)]
  | (k, n) :: rest =>
      if Text.coll_eqb k key then (k, n + 1) :: rest
      else (k, n) :: bump key rest
  end.

Definition group_count (keys : list string) : chart :=
  fold_left (fun groups key => bump key groups) keys [].

(** [ORDER BY _id]: ascending under the collation. *)
Fixpoint insert_sorted (g : string * Z) (sorted : chart) : chart :=
  match sorted with
  | [] => [g]
  | h :: rest =>
      if Text.coll_leb (fst g) (fst h) then g :: sorted
      else h :: insert_sorted g rest
  end.

Definition order_by_id (c : chart) : chart :=
  fold_right insert_sorted [] c.

(** The bar chart statement (lines 222-253). *)
Definition bar_chart (monthNum : Z) (t : list row)
    : completion (chart * list row) :=
  Ok (order_by_id
        (group_count (map price_range (filter (in_month monthNum) t))), t).

(** The pie chart statement (lines 273-278); without [ORDER BY] the
    groups come in the order in which they were opened. *)
Definition pie_chart (monthNum : Z) (t : list row)
    : completion (chart * list row) :=
  Ok (group_count (map category (filter (in_month monthNum) t)), t).

(** [CREATE TABLE IF NOT EXISTS transactions (...)] *)
Definition create_table (t : list row) : completion (unit * list row) :=
  Ok (tt, t).

(** [SELECT COUNT( * ) as count FROM transactions] *)
Definition count_all (t : list row) : completion (Z * list row) :=
  Ok (Z.of_nat (List.length t), t).

(** [INSERT INTO transactions (...) VALUES (...)]: [id] is the primary
    key, a second row with the same [id] is refused. *)
Definition insert_row (r : row) (t : list row)
    : completion (unit * list row) :=
  if existsb (fun r' => id r' =? id r) t
  then Throw ("Duplicate entry '" ++ Text.show_Z (id r) ++
              "' for key 'transactions.PRIMARY'")
  else Ok (tt, (t ++ [r])%list).

(** [TRUNCATE TABLE transactions] *)
Definition truncate (t : list row) : completion (unit * list row) :=
  Ok (tt, []).

End SQL.

(** ** The handlers of [server.js] *)

Module Server.

(** Truthiness of a query value: [undefined] and the empty string are
    falsy, arrays and objects are truthy. *)
Definition truthy (v : option qval) : bool :=
  match v with
  | None => false
  | Some (QStr s) => negb (s =? "")%string
  | Some _ => true
  end.

(** [x === v] for a string [x] of the array. *)
Definition strict_eq (x : string) (v : option qval) : bool :=
  match v with
  | Some (QStr s) => (x =? s)%string
  | _ => false
  end.

(** [array.includes(v)] *)
Definition includes (l : list string) (v : option qval) : bool :=
  existsb (fun x => strict_eq x v) l.

Fixpoint index_from (i : Z) (l : list string) (v : option qval) : Z :=
  match l with
  | [] => -1
  | x :: l' => if strict_eq x v then i else index_from (i + 1) l' v
  end.

(** [array.indexOf(v)] *)
Definition index_of (l : list string) (v : option qval) : Z :=
  index_from 0 l v.

(** The text of a query value inside a template literal. *)
Fixpoint to_text (v : qval) : string :=
  match v with
  | QStr s => s
  | QArr items => String.concat "," (map to_text items)
  | QObj _ => "[object Object]"
  end.

Definition template (v : option qval) : string :=
  match v with Some x => to_text x | None => "undefined" end.

(** [Math.ceil(total / perPage)] for integers [total >= 0] and
    [perPage >= 0]: a division by zero gives [Infinity], or [NaN] for
    [0 / 0]. *)
Definition ceil_div (total perPage : Z) : jsnum :=
  if perPage =? 0 then (if total =? 0 then JNaN else JInfinity)
  else JNum (- ((- total) / perPage)).

(** [x || d] on numbers: [NaN] and [0] are falsy. *)
Definition num_or (x : jsnum) (d : Z) : jsnum :=
  match x with
  | JNaN => JNum d
  | JNum 0 => JNum d
  | _ => x
  end.

(** [parseFloat(x) || 0] and [parseInt(x) || 0] on a column that may be
    [NULL]: [parseFloat(null)] is [NaN]. *)
Definition number_or_0 (x : option Z) : Z :=
  match x with
  | None => 0
  | Some v => if v =? 0 then 0 else v
  end.

Definition where_sql : string :=
  "SELECT * FROM transactions WHERE MONTH(date_of_sale) = ?".
Definition count_sql : string :=
  "SELECT COUNT(*) as total FROM transactions WHERE MONTH(date_of_sale) = ?".
Definition search_sql : string :=
  " AND (title LIKE ? OR description LIKE ? OR CAST(price AS CHAR) LIKE ?)".

(** [app.get('/api/transactions', ...)] (lines 124-174) *)
Definition list_transactions (q : query) : M response :=
  let month := q_month q in
  let search := match q_search q with Some s => s | None => "" end in
  let page := match q_page q with Some p => Z.of_N p | None => 1 end in
  let perPage := q_perPage q in
  if negb (truthy month) || negb (includes months month) then
    ret (mkResponse 400 (BError "Invalid month" None))
  else
    let monthNum := index_of months month + 1 in
    try_catch
      (let searching := negb (Text.trim search =? "")%string in
       let searchParam := "%" ++ search ++ "%" in
       let pat := if searching then Some searchParam else None in
       let limit :=
         match perPage with
         | Some pp => Some (Z.of_N pp, (page - 1) * Z.of_N pp)
         | None => None
         end in
       let query_text :=
         where_sql ++ (if searching then search_sql else "") ++
         match limit with
         | Some (l, o) =>
             " LIMIT " ++ Text.show_Z l ++ " OFFSET " ++ Text.show_Z o
         | None => ""
         end in
       let count_text :=
         count_sql ++ (if searching then search_sql else "") in
       transactions <-
         pool_query query_text (SQL.select_rows monthNum pat limit) ;;
       total <- pool_query count_text (SQL.count_rows monthNum pat) ;;
       ret (mkResponse 200 (BListing
         {| transactions := transactions;
            total := total;
            page := match perPage with Some _ => page | None => 1 end;
            perPage :=
              match perPage with Some pp => Z.of_N pp | None => total end;
            totalPages :=
              match perPage with
              | Some pp => num_or (ceil_div total (Z.of_N pp)) 1
              | None => JNum 1
              end |})))
      (fun error =>
         console_error ("Error fetching transactions: " ++ error) ;;
         ret (mkResponse 500 (BError "Error processing transactions" None))).

(** [app.get('/api/statistics', ...)] (lines 177-209) *)
Definition statistics (q : query) : M response :=
  let month := q_month q in
  if negb (truthy month) || negb (includes months month) then
    ret (mkResponse 400 (BError "Invalid month" None))
  else
    let monthNum := index_of months month + 1 in
    try_catch
      (totalSaleResult <-
         pool_query
           "SELECT SUM(price) as total FROM transactions WHERE MONTH(date_of_sale) = ? AND sold = TRUE"
           (SQL.sum_sold monthNum) ;;
       soldItemsResult <-
         pool_query
           "SELECT COUNT(*) as count FROM transactions WHERE MONTH(date_of_sale) = ? AND sold = TRUE"
           (SQL.count_sold true monthNum) ;;
       notSoldItemsResult <-
         pool_query
           "SELECT COUNT(*) as count FROM transactions WHERE MONTH(date_of_sale) = ? AND sold = FALSE"
           (SQL.count_sold false monthNum) ;;
       ret (mkResponse 200 (BStats
         {| totalSale := number_or_0 totalSaleResult;
            soldItems := number_or_0 (Some soldItemsResult);
            notSoldItems := number_or_0 (Some notSoldItemsResult) |})))
      (fun error =>
         console_error ("Error calculating statistics: " ++ error) ;;
         ret (mkResponse 500 (BError "Error calculating statistics" None))).

(** [app.get('/api/barchart', ...)] (lines 212-260) *)
Definition barchart (q : query) : M response :=
  let month := q_month q in
  if negb (truthy month) || negb (includes months month) then
    ret (mkResponse 400 (BError "Invalid month" None))
  else
    let monthNum := index_of months month + 1 in
    try_catch
      (result <-
         pool_query
           "SELECT CASE ... END AS _id, COUNT(*) as count FROM transactions WHERE MONTH(date_of_sale) = ? GROUP BY CASE ... END ORDER BY _id"
           (SQL.bar_chart monthNum) ;;
       ret (mkResponse 200 (BChart result)))
      (fun error =>
         console_error ("Error generating bar chart data: " ++ error) ;;
         ret (mkResponse 500 (BError "Error generating bar chart data" None))).

(** [app.get('/api/piechart', ...)] (lines 263-285) *)
Definition piechart (q : query) : M response :=
  let month := q_month q in
  if negb (truthy month) || negb (includes months month) then
    ret (mkResponse 400 (BError "Invalid month" None))
  else
    let monthNum := index_of months month + 1 in
    try_catch
      (result <-
         pool_query
           "SELECT category AS _id, COUNT(*) as count FROM transactions WHERE MONTH(date_of_sale) = ? GROUP BY category"
           (SQL.pie_chart monthNum) ;;
       ret (mkResponse 200 (BChart result)))
      (fun error =>
         console_error ("Error generating pie chart data: " ++ error) ;;
         ret (mkResponse 500 (BError "Error generating pie chart data" None))).

(** The deployed backend the combined handler calls. *)
Definition backend : string := "https://roxiler-backend-kpxn.onrender.com".

Definition statistics_url (month : string) : string :=
  backend ++ "/api/statistics?month=" ++ month.
Definition barchart_url (month : string) : string :=
  backend ++ "/api/barchart?month=" ++ month.
Definition piechart_url (month : string) : string :=
  backend ++ "/api/piechart?month=" ++ month.

(** [app.get('/api/combined', ...)] (lines 289-312): the three requests
    are issued before any of them is awaited. *)
Definition combined (q : query) : M response :=
  let month := q_month q in
  if negb (truthy month) || negb (includes months month) then
    ret (mkResponse 400 (BError "Invalid month" None))
  else
    try_catch
      (p1 <- axios_get (statistics_url (template month)) ;;
       p2 <- axios_get (barchart_url (template month)) ;;
       p3 <- axios_get (piechart_url (template month)) ;;
       '(statistics, barchart, piechart) <- await_all3 p1 p2 p3 ;;
       ret (mkResponse 200 (BCombined statistics barchart piechart)))
      (fun error =>
         console_error ("Error fetching combined data: " ++ error) ;;
         ret (mkResponse 500
                (BError "Error fetching combined data" (Some error)))).

(** The remote dataset of the seed. *)
Definition dataset_url : string :=
  "https://s3.amazonaws.com/roxiler.com/product_transaction.json".

Definition insert_sql : string :=
  "INSERT INTO transactions (id, title, description, price, category, image, sold, date_of_sale) VALUES (?, ?, ?, ?, ?, ?, ?, ?)".

(** [for (const item of seedData) await conn.query(insertQuery, [...])] *)
Fixpoint insert_each (seedData : list row) : M unit :=
  match seedData with
  | [] => ret tt
  | item :: rest =>
      pool_query insert_sql (SQL.insert_row item) ;; insert_each rest
  end.

(** [for (const item of response.data)]: the items of the dataset.  Any
    other body is an object, which cannot be iterated, or an array
    whose objects lack the columns, which are [NOT NULL]. *)
Definition seed_items (data : body) : M (list row) :=
  match data with
  | BDataset items => ret items
  | BChart [] => ret []
  | BChart (_ :: _) => throw "Column 'id' cannot be null"
  | _ => throw "seedData is not iterable"
  end.

(** The start-up block (lines 24-76): connect, create the table, seed it
    when it has no row.  [conn.release()] hands the connection back to
    the pool and leaves the world as it is. *)
Definition bootstrap : M unit :=
  try_catch
    (get_connection ;;
     console_log "Connected to MySQL" ;;
     pool_query "CREATE TABLE IF NOT EXISTS transactions (...)"
       SQL.create_table ;;
     console_log "Transactions table created or already exists" ;;
     count <- pool_query "SELECT COUNT(*) as count FROM transactions"
                SQL.count_all ;;
     (if count =? 0 then
        console_log "No data found, seeding database..." ;;
        promise <- axios_get dataset_url ;;
        seedData <- await promise ;;
        items <- seed_items seedData ;;
        insert_each items ;;
        console_log ("Seeded " ++ Text.show_Z (Z.of_nat (List.length items))
                     ++ " documents into transactions table")
      else
        console_log ("Database already contains " ++ Text.show_Z count
                     ++ " records, skipping seed")))
    (fun err =>
       console_error ("MySQL connection or seeding error: " ++ err)).

(** The body of the answer of the re-seeding endpoint:
    [{message, documentCount}] or [{error, details}]. *)
Inductive init_body :=
| Initialized (message : string) (documentCount : Z)
| InitFailed (error details : string).

(** [app.get('/api/init', ...)] (lines 84-121): fetch the dataset, empty
    the table, insert the items one by one, count the rows.  The
    answer is the status with the body. *)
Definition init : M (Z * init_body) :=
  try_catch
    (console_log "Fetching data from third-party API..." ;;
     promise <- axios_get dataset_url ;;
     seedData <- await promise ;;
     console_log "Clearing existing data..." ;;
     pool_query "TRUNCATE TABLE transactions" SQL.truncate ;;
     console_log "Inserting seed data..." ;;
     items <- seed_items seedData ;;
     insert_each items ;;
     console_log "Verifying insertion..." ;;
     count <- pool_query "SELECT COUNT(*) as count FROM transactions"
                SQL.count_all ;;
     console_log ("Inserted " ++ Text.show_Z count
                  ++ " documents into transactions table") ;;
     ret (200, Initialized "Database initialized successfully" count))
    (fun error =>
       console_error ("Error initializing database: " ++ error) ;;
       ret (500, InitFailed "Failed to initialize database" error)).

End Server.

(** ** Vocabulary of the statements *)

Module Spec.

(** [k] is the 1-12 ordinal of the month called [name]. *)
Definition month_number (name : string) (k : Z) : Prop :=
  1 <= k <= 12 /\ nth_error months (Z.to_nat (k - 1)) = Some name.

(** The rows of a table whose date of sale is in calendar month [k],
    whatever the year. *)
Definition of_month (k : Z) (t : list row) : list row :=
  filter (fun r => dt_month (date_of_sale r) =? k) t.

Definition sum_prices (rows : list row) : Z :=
  fold_right (fun r acc => price r + acc) 0 rows.

Definition count (rows : list row) : Z := Z.of_nat (List.length rows).



(** The pattern the listing searches with, if any. *)
Definition pattern_of (search : option string) : option string :=
  match search with
  | None => None
  | Some s =>
      if (Text.trim s =? "")%string then None
      else Some ("%" ++ s ++ "%")
  end.

(** The rows a listing request is about: those of the month that pass
    the search. *)
Definition matching (k : Z) (search : option string) (t : list row)
    : list row :=
  filter (SQL.where_ k (pattern_of search)) t.

(** Upwards-rounded quotient of two integers, the divisor positive. *)
Definition ceiling (a b : Z) : Z := (a + b - 1) / b.

(** The ten labels of the bar chart. *)
Definition ranges : list string :=
  [ "0-100"; "101-200"; "201-300"; "301-400"; "401-500"; "501-600";
    "601-700"; "701-800"; "801-900"; "901-above" ].

(** Sum of the counts of a chart. *)
Definition counts (c : chart) : Z :=
  fold_right (fun g acc => snd g + acc) 0 c.

Definition labels (c : chart) : list string := map fst c.

(** Number of keys equal to [label] under the collation. *)
Definition tally (label : string) (keys : list string) : Z :=
  Z.of_nat (List.length (filter (Text.coll_eqb label) keys)).

(** Sum of the counts of the groups of a chart whose label equals [x]
    under the collation. *)
Definition weight (x : string) (c : chart) : Z :=
  fold_right
    (fun g acc => (if Text.coll_eqb (fst g) x then snd g else 0) + acc) 0 c.

(** No two strings of the list are equal under the collation. *)
Fixpoint distinct (l : list string) : Prop :=
  match l with
  | [] => True
  | k :: l' =>
      (forall k', In k' l' -> Text.coll_eqb k k' = false) /\ distinct l'
  end.

(** The answer of a handler of this server to [GET ...?month=name], as
    a client sees it. *)
Definition answer (h : query -> M response) (name : string) (w : world)
    : http_result :=
  match fst (h (mkQuery (Some (QStr name)) None None None) w) with
  | Ok r => Http (status r) (sent r)
  | Throw e => NetFail e
  end.

(** The deployed backend is this very server over the same table: its
    three chart endpoints answer as the local handlers do. *)
Definition loops_back (w : world) : Prop :=
  forall name, In name months ->
    net w (Server.statistics_url name) = answer Server.statistics name w /\
    net w (Server.barchart_url name) = answer Server.barchart name w /\
    net w (Server.piechart_url name) = answer Server.piechart name w.

(** What the body of a handler's response is, [BError] if it raised. *)
Definition body_of (h : query -> M response) (q : query) (w : world)
    : body :=
  match fst (h q w) with
  | Ok r => sent r
  | Throw e => BError e None
  end.

(** The three charts computed in process, one after the other, under
    the envelope of the combined endpoint. *)
Definition composition (q : query) (w : world) : body :=
  BCombined (body_of Server.statistics q w)
            (body_of Server.barchart q w)
            (body_of Server.piechart q w).

(** A network whose backend host is served by this server over table
    [t], every other host being out of reach. *)
Definition served_by (t : list row) (url : string) : http_result :=
  let w := mkWorld true t (fun _ => NetFail "ENOTFOUND") [] in
  match find (fun n => (url =? Server.statistics_url n)%string) months with
  | Some n => answer Server.statistics n w
  | None =>
  match find (fun n => (url =? Server.barchart_url n)%string) months with
  | Some n => answer Server.barchart n w
  | None =>
  match find (fun n => (url =? Server.piechart_url n)%string) months with
  | Some n => answer Server.piechart n w
  | None => NetFail "ENOTFOUND"
  end end end.

Definition error_logged (w : world) : Prop :=
  exists line, In (ConsoleError line) (effects w).

(** A number below 2^53.  [Number] of its digits is that number; sums
    and products of such numbers that stay below 2^53 are exact in
    JavaScript; a template literal prints it with all its digits. *)
Definition safe (n : N) : Prop := (n < 2 ^ 53)%N.

(** The page a listing request asks for, 1 when it names none. *)
Definition page_number (q : query) : N :=
  match q_page q with Some p => p | None => 1%N end.




End Spec.

(** ** Sample data *)

Module Sample.

Definition on (year month day : Z) : datetime :=
  mkDatetime year month day 12 0 0.

Definition item (i : Z) (ttl cat : string) (cents : Z) (s : bool)
    (d : datetime) : row :=
  mkRow i ttl "sample" cents cat "img.png" s d.

(** The two records of the specification's example. *)
Definition march_a : row := item 1 "Alpha" "A" 5000 true (on 2022 3 5).
Definition march_b : row := item 2 "Beta" "B" 15000 false (on 2023 3 20).

Definition offline : string -> http_result := fun _ => NetFail "ENOTFOUND".

Definition world_of (t : list row) : world := mkWorld true t offline [].

Definition march : query := mkQuery (Some (QStr "March")) None None None.

(** Twenty-five records of March, numbered 1 to 25, after one of June. *)
Definition numbered (i : nat) : row :=
  item (Z.of_nat i) "Item" "A" 1000 true (on 2022 3 1).

Definition june : row := item 100 "Other" "B" 2000 true (on 2022 6 1).

Definition twenty_five : list row := june :: map numbered (seq 1 25).

Definition march_page (p pp : N) : query :=
  mkQuery (Some (QStr "March")) None (Some p) (Some pp).

Definition march_search (s : string) : query :=
  mkQuery (Some (QStr "March")) (Some s) None None.

(** A server whose deployed backend holds [remote] while its own
    table is [local]. *)
Definition deployed (local remote : list row) : world :=
  mkWorld true local (Spec.served_by remote) [].

(** An empty store, and a network whose every host answers with the
    dataset [items]. *)
Definition unseeded (items : list row) : world :=
  mkWorld true [] (fun _ => Http 200 (BDataset items)) [].

(** Two records whose categories differ by letter case only. *)
Definition upper_a : row := item 1 "One" "A" 1000 true (on 2022 3 1).
Definition lower_a : row := item 2 "Two" "a" 1000 true (on 2022 3 2).

(** A record priced 100.50. *)
Definition between_ranges : row :=
  item 1 "One" "A" 10050 true (on 2022 3 1).


End Sample.

(** ** Vocabulary of the further properties *)

Module Props.

(** [w'] is [w] after some effects, each of which satisfies [allowed]:
    the database, the table and the network are the same. *)
Definition follows (allowed : effect -> Prop) (w w' : world) : Prop :=
  db_up w' = db_up w /\ table w' = table w /\ net w' = net w /\
  exists more,
    effects w' = (effects w ++ more)%list /\ Forall allowed more.

(** A computation that, from any world, only performs allowed effects
    and changes nothing else. *)
Definition confined {A} (allowed : effect -> Prop) (c : M A) : Prop :=
  forall w, follows allowed w (snd (c w)).

Definition not_http (e : effect) : Prop :=
  match e with HttpGet _ => False | _ => True end.

Definition not_sql (e : effect) : Prop :=
  match e with Sql _ => False | _ => True end.

Definition is_error (e : effect) : Prop :=
  match e with ConsoleError _ => True | _ => False end.

(** The message with which [axios.get] rejects, if it does. *)
Definition rejection (r : http_result) : option string :=
  match r with
  | Http code _ =>
      if (200 <=? code) && (code <? 300) then None
      else Some ("Request failed with status code " ++ Text.show_Z code)
  | NetFail e => Some e
  end.

(** The records a listing answer carries, none if it is not a listing. *)
Definition listed (r : completion response) : list row :=
  match r with
  | Ok (mkResponse _ (BListing l)) => transactions l
  | _ => []
  end.

(** The listing request for page [p] of [pp] records. *)
Definition page_query (month : option qval) (search : option string)
    (pp p : N) : query :=
  mkQuery month search (Some p) (Some pp).

(** The page numbers 1 to [n]. *)
Definition pages (n : nat) : list N := map N.of_nat (seq 1 n).

(** Position of a label among the ten ranges, 10 for any other string. *)
Fixpoint rank_in (l : list string) (label : string) : nat :=
  match l with
  | [] => 0
  | x :: l' => if (x =? label)%string then 0 else S (rank_in l' label)
  end.

Definition rank (label : string) : nat := rank_in Spec.ranges label.

(** Two pairs of a chart, the first before the second: in the order of
    the collation, and in the order of the ranges. *)
Definition by_label (g h : string * Z) : Prop :=
  Text.coll_leb (fst g) (fst h) = true.

Definition by_rank (g h : string * Z) : Prop :=
  (rank (fst g) < rank (fst h))%nat.

(** The label of the range of whole numbers that holds [units]. *)
Definition range_of (units : Z) : string :=
  if units <=? 100 then "0-100"
  else if units <=? 200 then "101-200"
  else if units <=? 300 then "201-300"
  else if units <=? 400 then "301-400"
  else if units <=? 500 then "401-500"
  else if units <=? 600 then "501-600"
  else if units <=? 700 then "601-700"
  else if units <=? 800 then "701-800"
  else if units <=? 900 then "801-900"
  else "901-above".

(** A world whose database cannot be reached. *)
Definition down (t : list row) : world :=
  mkWorld false t Sample.offline [].

(** A world with table [t] and a network whose every host answers with
    the dataset [items]. *)
Definition reseedable (t items : list row) : world :=
  mkWorld true t (fun _ => Http 200 (BDataset items)) [].

End Props.

(** * Properties *)

(** ** Strings and [LIKE] *)

Section LikeFacts.

Import Text.

Lemma chars_app (a b : string) :
  chars (a ++ b) = (chars a ++ chars b)%list.
Proof.
  unfold chars. induction a as [|c a IH]; simpl; [reflexivity|].
  now rewrite IH.
Qed.

Lemma ceq_eq (a b : ascii) : ceq a b = true <-> lower a = lower b.
Proof. unfold ceq. apply Ascii.eqb_eq. Qed.

Lemma ceq_refl (a : ascii) : ceq a a = true.
Proof. apply ceq_eq. reflexivity. Qed.

Lemma like_percent_step (p s : list ascii) :
  like_chars ("%"%char :: p) s =
  like_chars p s ||
  match s with [] => false | _ :: s' => like_chars ("%"%char :: p) s' end.
Proof. destruct s; reflexivity. Qed.






(** What [ci_prefix] and [ci_infix] decide. *)
Lemma ci_prefix_spec (needle s : list ascii) :
  ci_prefix needle s = true <->
  exists mid post, s = (mid ++ post)%list /\ map lower mid = map lower needle.
Proof.
  revert s. induction needle as [|n needle IH]; intros s; simpl.
  - split; [intros _; now exists [], s | reflexivity].
  - destruct s as [|c s].
    + split; [discriminate|].
      intros (mid & post & E & Hm).
      destruct mid; [discriminate Hm | discriminate E].
    + rewrite andb_true_iff, ceq_eq, IH. split.
      * intros (Hc & mid & post & -> & Hm).
        exists (c :: mid), post. simpl. split; [reflexivity|].
        now rewrite Hc, Hm.
      * intros (mid & post & E & Hm).
        destruct mid as [|m mid]; [discriminate Hm|].
        simpl in E, Hm. injection E as -> ->. injection Hm as Hc Hm.
        split; [now symmetry|]. now exists mid, post.
Qed.

Lemma ci_infix_spec (needle s : list ascii) :
  ci_infix needle s = true <->
  exists pre mid post,
    s = (pre ++ mid ++ post)%list /\ map lower mid = map lower needle.
Proof.
  induction s as [|c s IH].
  - simpl. rewrite orb_false_r, ci_prefix_spec. split.
    + intros (mid & post & E & Hm). now exists [], mid, post.
    + intros (pre & mid & post & E & Hm).
      destruct pre; [|discriminate E]. now exists mid, post.
  - simpl. rewrite orb_true_iff, ci_prefix_spec, IH. split.
    + intros [(mid & post & E & Hm) | (pre & mid & post & E & Hm)].
      * now exists [], mid, post.
      * exists (c :: pre), mid, post. simpl. now rewrite E.
    + intros (pre & mid & post & E & Hm). destruct pre as [|p pre].
      * left. now exists mid, post.
      * right. simpl in E. injection E as _ ->. now exists pre, mid, post.
Qed.

Lemma fold_case_eq (a b : string) :
  coll_eqb a b = true <-> map lower (chars a) = map lower (chars b).
Proof.
  unfold coll_eqb, fold_case. rewrite String.eqb_eq. split.
  - intros H.
    apply (f_equal list_ascii_of_string) in H.
    now rewrite !list_ascii_of_string_of_list_ascii in H.
  - now intros ->.
Qed.

Lemma coll_eqb_refl (a : string) : coll_eqb a a = true.
Proof. now apply fold_case_eq. Qed.

Lemma coll_eqb_sym (a b : string) : coll_eqb a b = coll_eqb b a.
Proof. unfold coll_eqb. apply String.eqb_sym. Qed.

Lemma coll_eqb_trans (a b c : string) :
  coll_eqb a b = true -> coll_eqb b c = true -> coll_eqb a c = true.
Proof. rewrite !fold_case_eq. congruence. Qed.

(** Keys equal under the collation are equal to the same keys. *)
Lemma coll_eqb_congr (a b x : string) :
  coll_eqb a b = true -> coll_eqb a x = coll_eqb b x.
Proof.
  intros H. destruct (coll_eqb b x) eqn:E.
  - now apply coll_eqb_trans with b.
  - destruct (coll_eqb a x) eqn:E'; [|reflexivity].
    rewrite coll_eqb_sym in H.
    now rewrite (coll_eqb_trans _ _ _ H E') in E.
Qed.

End LikeFacts.

(** ** The month guard *)

Section MonthGuard.

Import Server.

Lemma month_number_cases (name : string) (k : Z) :
  Spec.month_number name k ->
  In name months /\ index_of months (Some (QStr name)) + 1 = k.
Proof.
  intros [Hk Hn].
  assert (C : k = 1 \/ k = 2 \/ k = 3 \/ k = 4 \/ k = 5 \/ k = 6 \/
              k = 7 \/ k = 8 \/ k = 9 \/ k = 10 \/ k = 11 \/ k = 12) by lia.
  repeat (destruct C as [-> | C]); try subst k;
    vm_compute in Hn; injection Hn as <-;
    (split; [simpl; tauto | reflexivity]).
Qed.

Lemma month_has_number (name : string) :
  In name months -> exists k, Spec.month_number name k.
Proof.
  intros H. simpl in H.
  repeat (destruct H as [<- | H]);
    [ exists 1 | exists 2 | exists 3 | exists 4 | exists 5 | exists 6
    | exists 7 | exists 8 | exists 9 | exists 10 | exists 11 | exists 12
    | contradiction ];
    (split; [lia | reflexivity]).
Qed.

Lemma guard_passes (name : string) :
  In name months ->
  negb (truthy (Some (QStr name))) ||
  negb (includes months (Some (QStr name))) = false.
Proof.
  intros H. simpl in H.
  repeat (destruct H as [<- | H]); try reflexivity. contradiction.
Qed.

Lemma guard_rejects (month : option qval) :
  (forall name, In name months -> month <> Some (QStr name)) ->
  negb (truthy month) || negb (includes months month) = true.
Proof.
  intros H. apply orb_true_iff. right. apply negb_true_iff.
  destruct (includes months month) eqn:E; [|reflexivity].
  unfold includes in E. apply existsb_exists in E as (x & Hx & Ex).
  destruct month as [[s | |] |]; simpl in Ex; try discriminate.
  apply String.eqb_eq in Ex. subst s. now elim (H x Hx).
Qed.

End MonthGuard.

(** ** Requests with an invalid month *)

(** C3: when the month is missing or is not, letter for letter, one of
    the twelve names January-December, each of the five query
    operations answers 400 "Invalid month" and leaves the world as it
    was: no statement has been sent to the store, no request to the
    network, nothing logged. *)
Theorem invalid_month_rejected_before_store (q : query) (w : world) :
  (forall name, In name months -> q_month q <> Some (QStr name)) ->
  let rejected := (Ok (mkResponse 400 (BError "Invalid month" None)), w) in
  Server.list_transactions q w = rejected /\
  Server.statistics q w = rejected /\
  Server.barchart q w = rejected /\
  Server.piechart q w = rejected /\
  Server.combined q w = rejected.
Proof.
  intros H rejected. apply guard_rejects in H.
  unfold Server.list_transactions, Server.statistics, Server.barchart,
    Server.piechart, Server.combined.
  rewrite H. repeat split; reflexivity.
Qed.

Lemma invalid_month_rejected_before_store_witness :
  let q := mkQuery (Some (QStr "march")) (Some "a") (Some 1%N) (Some 10%N) in
  let w := Sample.world_of [Sample.march_a] in
  (forall name, In name months -> q_month q <> Some (QStr name)) /\
  Server.list_transactions q w =
    (Ok (mkResponse 400 (BError "Invalid month" None)), w) /\
  Server.combined q w =
    (Ok (mkResponse 400 (BError "Invalid month" None)), w).
Proof.
  intros q w.
  assert (H : forall name, In name months -> q_month q <> Some (QStr name)).
  { intros name Hin. simpl in Hin.
    repeat (destruct Hin as [<- | Hin]); try discriminate. contradiction. }
  split; [exact H|].
  destruct (invalid_month_rejected_before_store q w H)
    as (Hl & _ & _ & _ & Hc).
  split; assumption.
Defined.

(** ** Running the monad *)

Lemma to_nat_of_N (n : N) : Z.to_nat (Z.of_N n) = N.to_nat n.
Proof. now rewrite <- N_nat_Z, Nat2Z.id. Qed.

Section MonadFacts.

Context {A B : Type}.

Lemma bind_ok (c : M A) (f : A -> M B) (w w' : world) (a : A) :
  c w = (Ok a, w') -> bind c f w = f a w'.
Proof. unfold bind. now intros ->. Qed.

Lemma bind_throw (c : M A) (f : A -> M B) (w w' : world) (e : string) :
  c w = (Throw e, w') -> bind c f w = (Throw e, w').
Proof. unfold bind. now intros ->. Qed.

Lemma try_ok (c : M A) (h : string -> M A) (w w' : world) (a : A) :
  c w = (Ok a, w') -> try_catch c h w = (Ok a, w').
Proof. unfold try_catch. now intros ->. Qed.

Lemma try_throw (c : M A) (h : string -> M A) (w w' : world) (e : string) :
  c w = (Throw e, w') -> try_catch c h w = h e w'.
Proof. unfold try_catch. now intros ->. Qed.

(** A statement that succeeds and leaves the table as it is. *)
Lemma query_reads (statement : string)
    (run : list row -> completion (A * list row)) (w : world) (a : A) :
  db_up w = true -> run (table w) = Ok (a, table w) ->
  pool_query statement run w = (Ok a, perform (Sql statement) w).
Proof. unfold pool_query. now intros -> ->. Qed.

Lemma query_writes (statement : string)
    (run : list row -> completion (A * list row)) (w : world) (a : A)
    (t : list row) :
  db_up w = true -> run (table w) = Ok (a, t) ->
  pool_query statement run w =
    (Ok a, set_table t (perform (Sql statement) w)).
Proof. unfold pool_query. now intros -> ->. Qed.

Lemma query_refused (statement : string)
    (run : list row -> completion (A * list row)) (w : world) (e : string) :
  db_up w = true -> run (table w) = Throw e ->
  pool_query statement run w = (Throw e, perform (Sql statement) w).
Proof. unfold pool_query. now intros -> ->. Qed.

End MonadFacts.

(** ** What the handlers compute on a valid month *)

Section Runs.

Import Server.

Variables (q : query) (w : world) (name : string) (k : Z).
Hypothesis Hname : Spec.month_number name k.
Hypothesis Hmonth : q_month q = Some (QStr name).
Hypothesis Hup : db_up w = true.

Ltac enter h :=
  destruct (month_number_cases _ _ Hname) as [Hin Hidx];
  unfold h; rewrite Hmonth, (guard_passes _ Hin), Hidx.

Ltac ask :=
  erewrite bind_ok; [| apply query_reads; [exact Hup | reflexivity]].

Ltac answered :=
  eexists; split; [apply try_ok; repeat ask; reflexivity | reflexivity].

Lemma statistics_run :
  exists w',
    statistics q w =
      (Ok (mkResponse 200 (BStats
         {| totalSale :=
              number_or_0 (SQL.sum_price
                (filter (SQL.sold_is true k) (table w)));
            soldItems :=
              number_or_0 (Some (Spec.count
                (filter (SQL.sold_is true k) (table w))));
            notSoldItems :=
              number_or_0 (Some (Spec.count
                (filter (SQL.sold_is false k) (table w)))) |})), w')
    /\ table w' = table w.
Proof. enter statistics. answered. Qed.

Lemma barchart_run :
  exists w',
    barchart q w =
      (Ok (mkResponse 200 (BChart
         (SQL.order_by_id (SQL.group_count
            (map SQL.price_range (filter (SQL.in_month k) (table w))))))),
       w')
    /\ table w' = table w.
Proof. enter barchart. answered. Qed.

Lemma piechart_run :
  exists w',
    piechart q w =
      (Ok (mkResponse 200 (BChart
         (SQL.group_count
            (map category (filter (SQL.in_month k) (table w)))))), w')
    /\ table w' = table w.
Proof. enter piechart. answered. Qed.

Lemma pattern_of_search :
  (if negb (Text.trim match q_search q with Some s => s | None => "" end
            =? "")%string
   then Some ("%" ++ match q_search q with Some s => s | None => "" end
              ++ "%")
   else None) = Spec.pattern_of (q_search q).
Proof.
  unfold Spec.pattern_of. destruct (q_search q) as [s|]; [|reflexivity].
  now destruct (Text.trim s =? "")%string.
Qed.

(** The listing without [perPage]. *)
Lemma list_all_run :
  q_perPage q = None ->
  exists w',
    list_transactions q w =
      (Ok (mkResponse 200 (BListing
         {| transactions := Spec.matching k (q_search q) (table w);
            total := Spec.count (Spec.matching k (q_search q) (table w));
            page := 1;
            perPage := Spec.count (Spec.matching k (q_search q) (table w));
            totalPages := JNum 1 |})), w')
    /\ table w' = table w.
Proof.
  intros Hpp. enter list_transactions. rewrite Hpp.
  cbv zeta. rewrite pattern_of_search. answered.
Qed.

(** The listing with [perPage], on a page whose offset is not
    negative. *)
Lemma list_page_run (pp : N) :
  q_perPage q = Some pp ->
  let p := match q_page q with Some p => Z.of_N p | None => 1 end in
  let hits := Spec.matching k (q_search q) (table w) in
  0 <= (p - 1) * Z.of_N pp ->
  exists w',
    list_transactions q w =
      (Ok (mkResponse 200 (BListing
         {| transactions :=
              firstn (N.to_nat pp)
                (skipn (Z.to_nat ((p - 1) * Z.of_N pp)) hits);
            total := Spec.count hits;
            page := p;
            perPage := Z.of_N pp;
            totalPages := num_or (ceil_div (Spec.count hits) (Z.of_N pp)) 1
         |})), w')
    /\ table w' = table w.
Proof.
  intros Hpp p hits Hoff. enter list_transactions. rewrite Hpp.
  cbv zeta. rewrite pattern_of_search. fold p.
  apply Z.ltb_ge in Hoff.
  eexists. split.
  - apply try_ok.
    erewrite bind_ok;
      [| apply query_reads;
         [exact Hup
         | unfold SQL.select_rows; rewrite Hoff, to_nat_of_N; reflexivity]].
    ask. reflexivity.
  - reflexivity.
Qed.

(** The listing with [perPage], on a page whose offset is negative:
    MySQL refuses the statement. *)
Lemma list_page_refused (pp : N) :
  q_perPage q = Some pp ->
  let p := match q_page q with Some p => Z.of_N p | None => 1 end in
  (p - 1) * Z.of_N pp < 0 ->
  exists w',
    list_transactions q w =
      (Ok (mkResponse 500 (BError "Error processing transactions" None)),
       w')
    /\ table w' = table w.
Proof.
  intros Hpp p Hoff. enter list_transactions. rewrite Hpp.
  cbv zeta. rewrite pattern_of_search. fold p.
  apply Z.ltb_lt in Hoff.
  eexists. split.
  - erewrite try_throw;
      [| apply bind_throw; apply query_refused;
         [exact Hup | unfold SQL.select_rows; rewrite Hoff; reflexivity]].
    reflexivity.
  - reflexivity.
Qed.

End Runs.

(** ** Statistics *)

Section StatisticsFacts.

Lemma filter_filter {A} (f g : A -> bool) (l : list A) :
  filter f (filter g l) = filter (fun x => g x && f x) l.
Proof.
  induction l as [|x l IH]; [reflexivity|]. simpl.
  destruct (g x); simpl; [destruct (f x)|]; now rewrite IH.
Qed.

Lemma filter_split_length {A} (f : A -> bool) (l : list A) :
  (List.length (filter f l) +
   List.length (filter (fun x => negb (f x)) l))%nat = List.length l.
Proof.
  induction l as [|x l IH]; [reflexivity|]. simpl.
  destruct (f x); simpl; lia.
Qed.

Lemma sold_rows (flag : bool) (k : Z) (t : list row) :
  filter (SQL.sold_is flag k) t =
  filter (fun r => Bool.eqb (sold r) flag) (Spec.of_month k t).
Proof. unfold Spec.of_month. now rewrite filter_filter. Qed.

Lemma number_or_0_some (v : Z) : Server.number_or_0 (Some v) = v.
Proof.
  simpl. destruct (v =? 0) eqn:E; [|reflexivity].
  apply Z.eqb_eq in E. now subst.
Qed.

Lemma number_or_0_sum (rows : list row) :
  Server.number_or_0 (SQL.sum_price rows) = Spec.sum_prices rows.
Proof.
  destruct rows as [|r rows]; [reflexivity|].
  unfold SQL.sum_price. apply number_or_0_some.
Qed.

End StatisticsFacts.

(** C5: on a valid month and a store that answers, statistics responds
    with [{totalSale, soldItems, notSoldItems}] where [totalSale] is the
    sum of the prices of the sold records of that month, a number that
    is 0 when the month has no sold record, and [soldItems] and
    [notSoldItems] count the sold and the unsold records of the month,
    so that together they count the records of the month. *)
Theorem statistics_totals (q : query) (w : world) (name : string) (k : Z) :
  Spec.month_number name k ->
  q_month q = Some (QStr name) ->
  db_up w = true ->
  let rows := Spec.of_month k (table w) in
  exists s,
    fst (Server.statistics q w) = Ok (mkResponse 200 (BStats s)) /\
    totalSale s = Spec.sum_prices (filter sold rows) /\
    soldItems s = Spec.count (filter sold rows) /\
    notSoldItems s = Spec.count (filter (fun r => negb (sold r)) rows) /\
    soldItems s + notSoldItems s = Spec.count rows /\
    (filter sold rows = [] -> totalSale s = 0).
Proof.
  intros Hname Hmonth Hup rows.
  destruct (statistics_run q w name k Hname Hmonth Hup) as (w' & Hrun & _).
  rewrite Hrun. cbn [fst].
  assert (Es : filter (SQL.sold_is true k) (table w) = filter sold rows).
  { rewrite sold_rows. apply filter_ext. intros r. now destruct (sold r). }
  assert (Eu : filter (SQL.sold_is false k) (table w) =
               filter (fun r => negb (sold r)) rows).
  { rewrite sold_rows. apply filter_ext. intros r. now destruct (sold r). }
  rewrite Es, Eu. eexists. split; [reflexivity|].
  cbn [totalSale soldItems notSoldItems].
  rewrite number_or_0_sum, !number_or_0_some.
  repeat split.
  - unfold Spec.count. rewrite <- (filter_split_length sold rows). lia.
  - now intros ->.
Qed.

Lemma statistics_totals_witness :
  let w := Sample.world_of [Sample.march_a; Sample.march_b] in
  Spec.month_number "March" 3 /\
  fst (Server.statistics Sample.march w) =
    Ok (mkResponse 200 (BStats (mkStats 5000 1 1))).
Proof.
  intros w.
  assert (Hm : Spec.month_number "March" 3) by (split; [lia | reflexivity]).
  split; [exact Hm|].
  destruct (statistics_totals Sample.march w "March" 3 Hm eq_refl eq_refl)
    as (s & Hs & Ht & Hsold & Hnot & _).
  rewrite Hs. destruct s as [ts si ni].
  cbn [totalSale soldItems notSoldItems] in Ht, Hsold, Hnot.
  now subst ts si ni.
Defined.

(** ** The listing: pagination *)

Section PaginationFacts.

Lemma ceil_div_ceiling (n pp : Z) :
  0 <= n -> 1 <= pp ->
  Server.num_or (Server.ceil_div n pp) 1 = JNum (Z.max 1 (Spec.ceiling n pp)).
Proof.
  intros Hn Hp. unfold Server.ceil_div, Spec.ceiling.
  assert (E : - ((- n) / pp) = (n + pp - 1) / pp).
  { pose proof (Z.div_mod (- n) pp ltac:(lia)) as E1.
    pose proof (Z.mod_pos_bound (- n) pp ltac:(lia)) as B1.
    pose proof (Z.div_mod (n + pp - 1) pp ltac:(lia)) as E2.
    pose proof (Z.mod_pos_bound (n + pp - 1) pp ltac:(lia)) as B2.
    nia. }
  assert (Hc : 0 <= (n + pp - 1) / pp) by (apply Z.div_pos; lia).
  destruct (pp =? 0) eqn:Ep; [apply Z.eqb_eq in Ep; lia|].
  rewrite E. destruct ((n + pp - 1) / pp) as [|c|c] eqn:Ec; simpl.
  - reflexivity.
  - f_equal. lia.
  - lia.
Qed.

Lemma offset_of_page (p pp : N) :
  (1 <= p)%N ->
  (Z.of_N p - 1) * Z.of_N pp = Z.of_N ((p - 1) * pp).
Proof. intros H. rewrite N2Z.inj_mul, N2Z.inj_sub by exact H. reflexivity. Qed.

End PaginationFacts.

(** C6: on a valid month and a store that answers, the listing without
    [perPage] returns every matching record and reports page 1, perPage
    equal to the number of matches and totalPages 1; with a [perPage] of
    at least 1 and a 1-indexed page, [perPage] and the offset
    [(page-1)*perPage] being below 2^53 (where JavaScript computes them
    exactly), it returns the (at most) [perPage] matching records that
    follow the first [(page-1)*perPage] ones, and totalPages is the
    upwards-rounded quotient of the number of matches by [perPage], but
    at least 1; with [perPage=10] and [page=2] on 25 matches these are
    the records 11 to 20, and totalPages is 3. *)
Theorem listing_pagination (q : query) (w : world) (name : string) (k : Z) :
  Spec.month_number name k ->
  q_month q = Some (QStr name) ->
  db_up w = true ->
  let hits := Spec.matching k (q_search q) (table w) in
  let n := Spec.count hits in
  let p := match q_page q with Some p => p | None => 1%N end in
  (q_perPage q = None ->
   fst (Server.list_transactions q w) =
     Ok (mkResponse 200 (BListing (mkListing hits n 1 n (JNum 1))))) /\
  (forall pp, q_perPage q = Some pp -> (1 <= pp)%N -> (1 <= p)%N ->
   Spec.safe pp -> Spec.safe ((p - 1) * pp) ->
   fst (Server.list_transactions q w) =
     Ok (mkResponse 200 (BListing
       (mkListing
          (firstn (N.to_nat pp) (skipn (N.to_nat ((p - 1) * pp)) hits))
          n (Z.of_N p) (Z.of_N pp)
          (JNum (Z.max 1 (Spec.ceiling n (Z.of_N pp)))))))) /\
  (q_perPage q = Some 10%N -> q_page q = Some 2%N -> n = 25 ->
   exists l,
     fst (Server.list_transactions q w) = Ok (mkResponse 200 (BListing l)) /\
     List.length (transactions l) = 10%nat /\
     (forall i, (i < 10)%nat ->
        nth_error (transactions l) i = nth_error hits (10 + i)) /\
     totalPages l = JNum 3).
Proof.
  intros Hname Hmonth Hup hits n p.
  assert (Hpage : forall pp, q_perPage q = Some pp -> (1 <= pp)%N ->
    (1 <= p)%N -> Spec.safe pp -> Spec.safe ((p - 1) * pp) ->
    fst (Server.list_transactions q w) =
      Ok (mkResponse 200 (BListing
        (mkListing
           (firstn (N.to_nat pp) (skipn (N.to_nat ((p - 1) * pp)) hits))
           n (Z.of_N p) (Z.of_N pp)
           (JNum (Z.max 1 (Spec.ceiling n (Z.of_N pp)))))))).
  { intros pp Hpp H1 Hp _ _.
    assert (Ep : match q_page q with Some p0 => Z.of_N p0 | None => 1 end
                 = Z.of_N p).
    { unfold p. now destruct (q_page q). }
    destruct (list_page_run q w name k Hname Hmonth Hup pp Hpp)
      as (w' & Hrun & _).
    { rewrite Ep, offset_of_page by exact Hp. apply N2Z.is_nonneg. }
    rewrite Hrun. cbn [fst]. rewrite Ep, offset_of_page by exact Hp.
    rewrite to_nat_of_N, ceil_div_ceiling; [reflexivity | | lia].
    unfold Spec.count. lia. }
  split; [|split].
  - intros Hpp.
    destruct (list_all_run q w name k Hname Hmonth Hup Hpp) as (w' & Hrun & _).
    now rewrite Hrun.
  - exact Hpage.
  - intros Hpp Hpg Hn.
    assert (Hp2 : p = 2%N) by (unfold p; now rewrite Hpg).
    assert (S10 : Spec.safe 10) by reflexivity.
    assert (Soff : Spec.safe ((p - 1) * 10)) by (rewrite Hp2; reflexivity).
    specialize (Hpage 10%N Hpp ltac:(lia) ltac:(lia) S10 Soff).
    rewrite Hp2, Hn in Hpage. eexists. split; [exact Hpage|].
    cbn [transactions totalPages].
    change (N.to_nat ((2 - 1) * 10)) with 10%nat.
    change (N.to_nat 10) with 10%nat.
    assert (Hlen : List.length hits = 25%nat)
      by (unfold n, Spec.count in Hn; lia).
    split; [|split].
    + rewrite length_firstn, length_skipn, Hlen. reflexivity.
    + intros i Hi. rewrite nth_error_firstn, nth_error_skipn.
      apply Nat.ltb_lt in Hi. now rewrite Hi.
    + reflexivity.
Qed.

Lemma listing_pagination_witness :
  let q := Sample.march_page 2 10 in
  let w := Sample.world_of Sample.twenty_five in
  Spec.month_number "March" 3 /\
  Spec.safe 10 /\ Spec.safe ((2 - 1) * 10) /\
  exists l,
    fst (Server.list_transactions q w) = Ok (mkResponse 200 (BListing l)) /\
    map id (transactions l) = [11; 12; 13; 14; 15; 16; 17; 18; 19; 20] /\
    total l = 25 /\ page l = 2 /\ perPage l = 10 /\ totalPages l = JNum 3.
Proof.
  intros q w.
  assert (Hm : Spec.month_number "March" 3) by (split; [lia | reflexivity]).
  split; [exact Hm|]. split; [reflexivity|]. split; [reflexivity|].
  destruct (listing_pagination q w "March" 3 Hm eq_refl eq_refl)
    as (_ & Hpage & _).
  eexists. split.
  - apply (Hpage 10%N eq_refl); try reflexivity;
      vm_compute; discriminate.
  - vm_compute. repeat split; reflexivity.
Defined.

(** ** The listing: month filter *)

Section MonthFilterFacts.

Lemma in_firstn {A} (n : nat) (l : list A) (x : A) :
  In x (firstn n l) -> In x l.
Proof.
  intros H. rewrite <- (firstn_skipn n l). apply in_or_app. now left.
Qed.

Lemma in_skipn {A} (n : nat) (l : list A) (x : A) :
  In x (skipn n l) -> In x l.
Proof.
  intros H. rewrite <- (firstn_skipn n l). apply in_or_app. now right.
Qed.

Lemma matching_of_month (k : Z) (search : option string) (t : list row) :
  Spec.matching k search t =
  filter (fun r => match Spec.pattern_of search with
                   | Some p => SQL.matches p r
                   | None => true
                   end) (Spec.of_month k t).
Proof. unfold Spec.matching, Spec.of_month. now rewrite filter_filter. Qed.

Lemma matching_in (k : Z) (search : option string) (t : list row) (r : row) :
  In r (Spec.matching k search t) ->
  In r t /\ dt_month (date_of_sale r) = k.
Proof.
  rewrite matching_of_month. intros H.
  apply filter_In in H as [H _].
  apply filter_In in H as [H E]. now apply Z.eqb_eq in E.
Qed.

End MonthFilterFacts.

(** C7: on a valid month, of ordinal [k] between 1 and 12 in the list
    of names, and a store that answers, the listing responds and every
    record it returns is a record of the table whose date of sale has
    calendar month [k]; the year plays no part: without [perPage] the
    records returned are all those of the table with calendar month [k]
    that pass the search, and without a search all those with calendar
    month [k]. *)
Theorem listing_is_of_the_month (q : query) (w : world) (name : string) :
  In name months ->
  q_month q = Some (QStr name) ->
  db_up w = true ->
  exists k,
    Spec.month_number name k /\
    (exists r,
       fst (Server.list_transactions q w) = Ok r /\
       (status r = 500 \/
        exists l, status r = 200 /\ sent r = BListing l /\
          forall x, In x (transactions l) ->
            In x (table w) /\ dt_month (date_of_sale x) = k)) /\
    (q_perPage q = None ->
     exists l,
       fst (Server.list_transactions q w) = Ok (mkResponse 200 (BListing l)) /\
       transactions l =
         filter (fun x => match Spec.pattern_of (q_search q) with
                          | Some p => SQL.matches p x
                          | None => true
                          end) (Spec.of_month k (table w)) /\
       (q_search q = None ->
        forall x, In x (table w) -> dt_month (date_of_sale x) = k ->
          In x (transactions l))).
Proof.
  intros Hin Hmonth Hup.
  destruct (month_has_number name Hin) as (k & Hname).
  exists k. split; [exact Hname|]. split.
  - destruct (q_perPage q) as [pp|] eqn:Hpp.
    + set (p := match q_page q with Some p => Z.of_N p | None => 1 end).
      destruct (Z_lt_le_dec ((p - 1) * Z.of_N pp) 0) as [Hneg | Hpos].
      * destruct (list_page_refused q w name k Hname Hmonth Hup pp Hpp Hneg)
          as (w' & Hrun & _).
        rewrite Hrun. eexists. split; [reflexivity|]. now left.
      * destruct (list_page_run q w name k Hname Hmonth Hup pp Hpp Hpos)
          as (w' & Hrun & _).
        rewrite Hrun. eexists. split; [reflexivity|]. right.
        eexists. split; [reflexivity|]. split; [reflexivity|].
        cbn [transactions]. intros x Hx.
        apply in_firstn, in_skipn in Hx. now apply matching_in in Hx.
    + destruct (list_all_run q w name k Hname Hmonth Hup Hpp)
        as (w' & Hrun & _).
      rewrite Hrun. eexists. split; [reflexivity|]. right.
      eexists. split; [reflexivity|]. split; [reflexivity|].
      cbn [transactions]. intros x Hx. now apply matching_in in Hx.
  - intros Hpp.
    destruct (list_all_run q w name k Hname Hmonth Hup Hpp) as (w' & Hrun & _).
    rewrite Hrun. eexists. split; [reflexivity|]. cbn [transactions].
    split; [apply matching_of_month|].
    intros Hs x Hx Hk. rewrite matching_of_month, Hs. cbn.
    apply filter_In. split; [|reflexivity].
    apply filter_In. split; [exact Hx|]. now apply Z.eqb_eq.
Qed.

Lemma listing_is_of_the_month_witness :
  let w := Sample.world_of
             [Sample.march_a; Sample.june; Sample.march_b] in
  In "March" months /\
  (exists l,
     fst (Server.list_transactions Sample.march w) =
       Ok (mkResponse 200 (BListing l)) /\
     transactions l = [Sample.march_a; Sample.march_b]) /\
  dt_year (date_of_sale Sample.march_a) = 2022 /\
  dt_year (date_of_sale Sample.march_b) = 2023.
Proof.
  intros w.
  assert (Hin : In "March" months) by (simpl; tauto).
  split; [exact Hin|].
  destruct (listing_is_of_the_month Sample.march w "March" Hin eq_refl eq_refl)
    as (k & Hk & _ & Hall).
  destruct (month_number_cases _ _ Hk) as [_ E]. vm_compute in E. subst k.
  destruct (Hall eq_refl) as (l & Hl & Ht & _).
  split; [|split; reflexivity].
  exists l. split; [exact Hl|]. rewrite Ht. reflexivity.
Defined.

(** ** The listing: search *)

Section SearchFacts.




End SearchFacts.







(** ** Grouping *)

Section GroupFacts.

Import Text SQL Spec.

Lemma bump_weight (x key : string) (g : chart) :
  weight x (bump key g) =
  weight x g + (if coll_eqb x key then 1 else 0).
Proof.
  induction g as [|[k n] g IH]; simpl.
  - rewrite (coll_eqb_sym key x). lia.
  - destruct (coll_eqb k key) eqn:E; simpl.
    + rewrite (coll_eqb_sym x key), <- (coll_eqb_congr _ _ x E).
      destruct (coll_eqb k x); lia.
    + rewrite IH. lia.
Qed.

Lemma fold_bump_weight (x : string) (keys : list string) (g : chart) :
  weight x (fold_left (fun groups key => bump key groups) keys g) =
  weight x g + tally x keys.
Proof.
  revert g. induction keys as [|key keys IH]; intros g; simpl.
  - unfold tally. simpl. lia.
  - rewrite IH, bump_weight. unfold tally. simpl.
    destruct (coll_eqb x key); simpl; lia.
Qed.

Lemma bump_counts (key : string) (g : chart) :
  counts (bump key g) = counts g + 1.
Proof.
  induction g as [|[k n] g IH]; simpl; [lia|].
  destruct (coll_eqb k key); simpl; lia.
Qed.

Lemma fold_bump_counts (keys : list string) (g : chart) :
  counts (fold_left (fun groups key => bump key groups) keys g) =
  counts g + Z.of_nat (List.length keys).
Proof.
  revert g. induction keys as [|key keys IH]; intros g.
  - simpl. lia.
  - cbn [fold_left List.length]. rewrite IH, bump_counts. lia.
Qed.

Lemma bump_labels (key : string) (g : chart) :
  labels (bump key g) =
  if existsb (fun k => coll_eqb k key) (labels g)
  then labels g else (labels g ++ [key])%list.
Proof.
  induction g as [|[k n] g IH]; simpl; [reflexivity|].
  destruct (coll_eqb k key); simpl; [reflexivity|].
  fold (labels (bump key g)). fold (labels g). rewrite IH.
  now destruct (existsb _ (labels g)).
Qed.

Lemma distinct_snoc (l : list string) (key : string) :
  distinct l -> (forall k, In k l -> coll_eqb k key = false) ->
  distinct (l ++ [key]).
Proof.
  induction l as [|k l IH]; simpl; intros Hd Hn.
  - split; [intros ? []|exact I].
  - destruct Hd as [Hk Hd]. split.
    + intros k' Hin. apply in_app_or in Hin as [Hin | [<- | []]].
      * now apply Hk.
      * apply Hn. now left.
    + apply IH; [exact Hd|]. intros k' Hin. apply Hn. now right.
Qed.

Lemma bump_distinct (key : string) (g : chart) :
  distinct (labels g) -> distinct (labels (bump key g)).
Proof.
  intros Hd. rewrite bump_labels.
  destruct (existsb _ (labels g)) eqn:E; [exact Hd|].
  apply distinct_snoc; [exact Hd|]. intros k Hin.
  destruct (coll_eqb k key) eqn:Ek; [|reflexivity].
  rewrite <- E. symmetry. apply existsb_exists. now exists k.
Qed.

Lemma bump_covers (key : string) (g : chart) :
  exists k, In k (labels (bump key g)) /\ coll_eqb k key = true.
Proof.
  rewrite bump_labels.
  destruct (existsb _ (labels g)) eqn:E.
  - apply existsb_exists in E as (k & Hin & Hk). now exists k.
  - exists key. split; [|apply coll_eqb_refl].
    apply in_or_app. right. now left.
Qed.

Lemma bump_keeps (key k : string) (g : chart) :
  In k (labels g) -> In k (labels (bump key g)).
Proof.
  intros H. rewrite bump_labels.
  destruct (existsb _ (labels g)); [exact H|].
  apply in_or_app. now left.
Qed.

Lemma bump_from (key k : string) (g : chart) :
  In k (labels (bump key g)) -> In k (labels g) \/ k = key.
Proof.
  rewrite bump_labels.
  destruct (existsb _ (labels g)); [now left|].
  intros H. apply in_app_or in H as [H | [<- | []]]; [now left | now right].
Qed.

Lemma fold_bump_distinct (keys : list string) (g : chart) :
  distinct (labels g) ->
  distinct (labels (fold_left (fun groups key => bump key groups) keys g)).
Proof.
  revert g. induction keys as [|key keys IH]; intros g Hd; simpl.
  - exact Hd.
  - apply IH. now apply bump_distinct.
Qed.

Lemma fold_bump_keeps (keys : list string) (g : chart) (k : string) :
  In k (labels g) ->
  In k (labels (fold_left (fun groups key => bump key groups) keys g)).
Proof.
  revert g. induction keys as [|key keys IH]; intros g H; simpl.
  - exact H.
  - apply IH. now apply bump_keeps.
Qed.

Lemma fold_bump_covers (keys : list string) (g : chart) (x : string) :
  In x keys ->
  exists k,
    In k (labels (fold_left (fun groups key => bump key groups) keys g)) /\
    coll_eqb k x = true.
Proof.
  revert g. induction keys as [|key keys IH]; intros g H; simpl.
  - destruct H.
  - destruct H as [-> | H].
    + destruct (bump_covers x g) as (k & Hin & Hk).
      exists k. split; [|exact Hk]. now apply fold_bump_keeps.
    + now apply IH.
Qed.

Lemma fold_bump_from (keys : list string) (g : chart) (k : string) :
  In k (labels (fold_left (fun groups key => bump key groups) keys g)) ->
  In k (labels g) \/ In k keys.
Proof.
  revert g. induction keys as [|key keys IH]; intros g H; simpl in *.
  - now left.
  - apply IH in H as [H | H]; [|now right; right].
    apply bump_from in H as [H | ->]; [now left | now right; left].
Qed.

Lemma weight_none (x : string) (g : chart) :
  (forall k, In k (labels g) -> coll_eqb k x = false) -> weight x g = 0.
Proof.
  induction g as [|[k n] g IH]; simpl; intros H; [reflexivity|].
  rewrite (H k) by now left. rewrite IH; [reflexivity|].
  intros k' Hin. apply H. now right.
Qed.

Lemma weight_of_label (k : string) (n : Z) (g : chart) :
  distinct (labels g) -> In (k, n) g -> weight k g = n.
Proof.
  induction g as [|[k0 n0] g IH]; simpl; intros Hd Hin; [destruct Hin|].
  destruct Hd as [Hk Hd]. destruct Hin as [E | Hin].
  - injection E as -> ->. rewrite coll_eqb_refl, weight_none; [lia|].
    intros k' Hin. rewrite coll_eqb_sym. now apply Hk.
  - rewrite (Hk k), IH by (assumption || now apply (in_map fst _ (k, n))).
    reflexivity.
Qed.

(** What [GROUP BY] with [COUNT] returns for a list of keys. *)
Lemma group_count_spec (keys : list string) :
  let c := group_count keys in
  distinct (labels c) /\
  (forall x, In x keys ->
     exists label n, In (label, n) c /\ coll_eqb label x = true) /\
  (forall label n, In (label, n) c ->
     In label keys /\ n = tally label keys /\ 1 <= n) /\
  counts c = Z.of_nat (List.length keys).
Proof.
  intros c.
  assert (Hd : distinct (labels c)) by (apply fold_bump_distinct; exact I).
  split; [exact Hd|]. split; [|split].
  - intros x Hx.
    destruct (fold_bump_covers keys [] x Hx) as (k & Hin & Hk).
    apply in_map_iff in Hin as ([k' n] & E & Hin). simpl in E. subst k'.
    now exists k, n.
  - intros label n Hin.
    assert (Hl : In label keys).
    { destruct (fold_bump_from keys [] label) as [[] | H]; [|exact H].
      now apply (in_map fst _ (label, n)). }
    assert (Hn : n = tally label keys).
    { rewrite <- (weight_of_label label n c Hd Hin).
      unfold c, group_count. now rewrite fold_bump_weight. }
    split; [exact Hl|]. split; [exact Hn|]. subst n. unfold tally.
    assert (In label (filter (coll_eqb label) keys)).
    { apply filter_In. split; [exact Hl | apply coll_eqb_refl]. }
    destruct (filter (coll_eqb label) keys); [contradiction|].
    simpl. lia.
  - unfold c, group_count. now rewrite fold_bump_counts.
Qed.

End GroupFacts.

(** ** Pie chart *)

(** C9, as the code has it: on a valid month and a store that answers,
    the pie chart groups the records of the month by category under the
    column's collation, which ignores letter case.  No two labels are
    equal up to case; every category present is, up to case, the label
    of a pair; every pair is labelled with the category of a record of
    the month and counts the records of the month whose category equals
    its label up to case, at least one; the counts sum to the number of
    records of the month.  When no two categories present differ by
    case only, every category present is itself a label, once. *)
Theorem piechart_groups_up_to_case
    (q : query) (w : world) (name : string) (k : Z) :
  Spec.month_number name k ->
  q_month q = Some (QStr name) ->
  db_up w = true ->
  let cats := map category (Spec.of_month k (table w)) in
  exists c,
    fst (Server.piechart q w) = Ok (mkResponse 200 (BChart c)) /\
    Spec.distinct (Spec.labels c) /\
    (forall x, In x cats ->
       exists label n, In (label, n) c /\ Text.coll_eqb label x = true) /\
    (forall label n, In (label, n) c ->
       In label cats /\ n = Spec.tally label cats /\ 1 <= n) /\
    Spec.counts c = Spec.count (Spec.of_month k (table w)) /\
    ((forall x y, In x cats -> In y cats -> Text.coll_eqb x y = true -> x = y) ->
     NoDup (Spec.labels c) /\
     forall x, In x cats -> In x (Spec.labels c)).
Proof.
  intros Hname Hmonth Hup cats.
  destruct (piechart_run q w name k Hname Hmonth Hup) as (w' & Hrun & _).
  rewrite Hrun. eexists. split; [reflexivity|].
  change (filter (SQL.in_month k) (table w)) with (Spec.of_month k (table w)).
  fold cats.
  destruct (group_count_spec cats) as (Hd & Hcov & Hpair & Hsum).
  split; [exact Hd|]. split; [exact Hcov|]. split; [exact Hpair|]. split.
  - rewrite Hsum. unfold cats, Spec.count. now rewrite length_map.
  - intros Hcase. split.
    + revert Hd. generalize (Spec.labels (SQL.group_count cats)).
      induction l as [|x l IH]; simpl; intros Hd; constructor.
      * intros Hin. destruct Hd as [Hx _].
        specialize (Hx x Hin). now rewrite coll_eqb_refl in Hx.
      * apply IH. tauto.
    + intros x Hx. destruct (Hcov x Hx) as (label & n & Hin & Heq).
      destruct (Hpair label n Hin) as (Hl & _).
      rewrite <- (Hcase label x Hl Hx Heq).
      now apply (in_map fst _ (label, n)).
Qed.

Lemma piechart_groups_up_to_case_witness :
  let w := Sample.world_of [Sample.march_a; Sample.june; Sample.march_b] in
  Spec.month_number "March" 3 /\
  exists c,
    fst (Server.piechart Sample.march w) = Ok (mkResponse 200 (BChart c)) /\
    Spec.counts c = 2 /\
    In "A" (Spec.labels c) /\ In "B" (Spec.labels c).
Proof.
  intros w.
  assert (Hm : Spec.month_number "March" 3) by (split; [lia | reflexivity]).
  split; [exact Hm|].
  destruct (piechart_groups_up_to_case Sample.march w "March" 3
              Hm eq_refl eq_refl) as (c & Hc & _ & _ & _ & Hsum & Hcase).
  exists c. split; [exact Hc|]. split; [exact Hsum|].
  assert (Hsame : forall x y : string,
             In x ["A"; "B"] -> In y ["A"; "B"] ->
             Text.coll_eqb x y = true -> x = y).
  { intros x y [<- | [<- | []]] [<- | [<- | []]] E;
      (reflexivity || discriminate E). }
  destruct (Hcase Hsame) as (_ & Hall).
  split; apply Hall; simpl; tauto.
Defined.

(** C9, as stated, fails: two records of March have the categories
    ["A"] and ["a"], which are distinct, and the pie chart has a single
    pair, labelled ["A"], that counts both; ["a"] labels no pair. *)
Lemma piechart_case_counterexample :
  let w := Sample.world_of [Sample.upper_a; Sample.lower_a] in
  category Sample.upper_a <> category Sample.lower_a /\
  fst (Server.piechart Sample.march w) =
    Ok (mkResponse 200 (BChart [("A", 2)])).
Proof. intros w. split; [discriminate | reflexivity]. Qed.

(** ** Bar chart *)

Section BarChartFacts.

Import Text SQL Spec.

Lemma insert_sorted_perm (g : string * Z) (c : chart) :
  Permutation (insert_sorted g c) (g :: c).
Proof.
  induction c as [|h c IH]; simpl; [apply Permutation_refl|].
  destruct (coll_leb (fst g) (fst h)); [apply Permutation_refl|].
  eapply perm_trans; [apply perm_skip, IH | apply perm_swap].
Qed.

Lemma order_by_id_perm (c : chart) : Permutation (order_by_id c) c.
Proof.
  induction c as [|g c IH]; simpl; [apply perm_nil|].
  eapply perm_trans; [apply insert_sorted_perm | now apply perm_skip].
Qed.

Lemma counts_perm (c c' : chart) :
  Permutation c c' -> counts c = counts c'.
Proof. induction 1; simpl; lia. Qed.

Lemma price_range_in_ranges (r : row) : In (price_range r) ranges.
Proof.
  unfold price_range.
  repeat match goal with
         | |- context [if ?b then _ else _] => destruct b
         end; simpl; tauto.
Qed.

(** On the ten labels the collation is plain equality. *)
Lemma coll_eqb_ranges (a b : string) :
  In a ranges -> In b ranges -> coll_eqb a b = (a =? b)%string.
Proof.
  intros Ha Hb. simpl in Ha, Hb.
  repeat (destruct Ha as [<- | Ha]); try contradiction;
    repeat (destruct Hb as [<- | Hb]); try contradiction; reflexivity.
Qed.

Lemma tally_map {A} (f : A -> string) (label : string) (l : list A) :
  tally label (map f l) =
  Z.of_nat (List.length (filter (fun x => coll_eqb label (f x)) l)).
Proof.
  unfold tally. f_equal.
  induction l as [|x l IH]; simpl; [reflexivity|].
  destruct (coll_eqb label (f x)); simpl; now rewrite IH.
Qed.

Lemma between_spec (lo hi : Z) (r : row) :
  between lo hi r = true <-> lo * 100 <= price r <= hi * 100.
Proof. unfold between. rewrite andb_true_iff, !Z.leb_le. tauto. Qed.

(** A whole, non-negative price is labelled ['901-above'] exactly
    when it exceeds 900. *)
Lemma price_range_whole_above (r : row) (units : Z) :
  price r = units * 100 -> 0 <= units ->
  (price_range r = "901-above" <-> 900 < units).
Proof.
  intros Hp Hu. unfold price_range.
  repeat match goal with
         | |- context [if between ?lo ?hi r then _ else _] =>
             let E := fresh "E" in
             destruct (between lo hi r) eqn:E;
             [ apply between_spec in E
             | apply not_true_iff_false in E; rewrite between_spec in E ]
         end;
    (split; [intros H; try discriminate H | intros H]); try lia.
  reflexivity.
Qed.

End BarChartFacts.

(** X8. What does hold of the bar chart: on a valid month and a store
    that answers, every record of the month is counted once, under one
    of the ten labels, namely the one the [CASE] expression gives it,
    and a label with no record is left out. *)
Lemma barchart_counts_every_record
    (q : query) (w : world) (name : string) (k : Z) :
  Spec.month_number name k ->
  q_month q = Some (QStr name) ->
  db_up w = true ->
  let rows := Spec.of_month k (table w) in
  exists c,
    fst (Server.barchart q w) = Ok (mkResponse 200 (BChart c)) /\
    Spec.counts c = Spec.count rows /\
    forall label n, In (label, n) c ->
      In label Spec.ranges /\ 1 <= n /\
      n = Spec.count
            (filter (fun r => (SQL.price_range r =? label)%string) rows).
Proof.
  intros Hname Hmonth Hup rows.
  destruct (barchart_run q w name k Hname Hmonth Hup) as (w' & Hrun & _).
  rewrite Hrun. eexists. split; [reflexivity|].
  change (filter (SQL.in_month k) (table w)) with rows.
  destruct (group_count_spec (map SQL.price_range rows))
    as (_ & _ & Hpair & Hsum).
  cbv zeta in Hpair, Hsum. split.
  - rewrite (counts_perm _ _ (order_by_id_perm _)), Hsum.
    unfold Spec.count. now rewrite length_map.
  - intros label n Hin.
    apply (Permutation_in _ (order_by_id_perm _)) in Hin.
    destruct (Hpair label n Hin) as (Hl & Hn & H1).
    assert (Hr : In label Spec.ranges).
    { apply in_map_iff in Hl as (r & <- & _). apply price_range_in_ranges. }
    split; [exact Hr|]. split; [exact H1|].
    rewrite Hn, tally_map. unfold Spec.count. do 2 f_equal.
    apply filter_ext. intros r.
    rewrite (coll_eqb_ranges _ _ Hr (price_range_in_ranges r)).
    apply String.eqb_sym.
Qed.

(** C2 fails on the code: a record of March priced 100.50, which does
    not exceed 900 and lies in none of the ten ranges, is counted under
    ['901-above'], the [ELSE] of the [CASE] expression. *)
Theorem barchart_price_between_ranges :
  let w := Sample.world_of [Sample.between_ranges] in
  price Sample.between_ranges = 10050 /\
  Text.decimal_text (price Sample.between_ranges) = "100.50" /\
  SQL.price_range Sample.between_ranges = "901-above" /\
  fst (Server.barchart Sample.march w) =
    Ok (mkResponse 200 (BChart [("901-above", 1)])).
Proof. intros w. repeat split; reflexivity. Qed.

(** ** The combined endpoint *)

Section CombinedFacts.

Import Server.

Lemma axios_get_200 (url : string) (w : world) (data : body) :
  net w url = Http 200 data ->
  axios_get url w = (Ok (Ok data), perform (HttpGet url) w).
Proof. unfold axios_get. now intros ->. Qed.

(** The envelope of whatever the three requests brought back. *)
Lemma combined_run (q : query) (w : world) (name : string) (s b p : body) :
  In name months ->
  q_month q = Some (QStr name) ->
  net w (statistics_url name) = Http 200 s ->
  net w (barchart_url name) = Http 200 b ->
  net w (piechart_url name) = Http 200 p ->
  combined q w =
    (Ok (mkResponse 200 (BCombined s b p)),
     perform (HttpGet (piechart_url name))
       (perform (HttpGet (barchart_url name))
          (perform (HttpGet (statistics_url name)) w))).
Proof.
  intros Hin Hmonth Hs Hb Hp.
  unfold combined. rewrite Hmonth, (guard_passes _ Hin).
  change (template (Some (QStr name))) with name.
  apply try_ok.
  erewrite bind_ok; [| apply axios_get_200; exact Hs].
  erewrite bind_ok; [| apply axios_get_200; exact Hb].
  erewrite bind_ok; [| apply axios_get_200; exact Hp].
  reflexivity.
Qed.

(** On a valid month and a store that answers, the three chart
    handlers answer 200, and their body depends on the month only. *)
Lemma answer_is_body (q : query) (w : world) (name : string) :
  In name months ->
  q_month q = Some (QStr name) ->
  db_up w = true ->
  Spec.answer statistics name w = Http 200 (Spec.body_of statistics q w) /\
  Spec.answer barchart name w = Http 200 (Spec.body_of barchart q w) /\
  Spec.answer piechart name w = Http 200 (Spec.body_of piechart q w).
Proof.
  intros Hin Hmonth Hup.
  destruct (month_has_number name Hin) as (k & Hname).
  set (q0 := mkQuery (Some (QStr name)) None None None).
  unfold Spec.answer, Spec.body_of. fold q0.
  destruct (statistics_run q w name k Hname Hmonth Hup) as (? & -> & _).
  destruct (statistics_run q0 w name k Hname eq_refl Hup) as (? & -> & _).
  destruct (barchart_run q w name k Hname Hmonth Hup) as (? & -> & _).
  destruct (barchart_run q0 w name k Hname eq_refl Hup) as (? & -> & _).
  destruct (piechart_run q w name k Hname Hmonth Hup) as (? & -> & _).
  destruct (piechart_run q0 w name k Hname eq_refl Hup) as (? & -> & _).
  repeat split; reflexivity.
Qed.

End CombinedFacts.

(** C1, as the code has it: on a valid month, the combined endpoint
    sends three HTTP GET requests, for the statistics, the bar chart and
    the pie chart of that month, to the deployed backend, and returns
    the three bodies it receives under the envelope
    [{statistics, barchart, piechart}]; it sends no statement to the
    store itself.  When the deployed backend is this server over the
    same table, and the store answers, the envelope holds what
    statistics, barChart and pieChart return in process for that
    month. *)
Theorem combined_goes_through_the_backend
    (q : query) (w : world) (name : string) :
  In name months ->
  q_month q = Some (QStr name) ->
  let requests :=
    [HttpGet (Server.statistics_url name);
     HttpGet (Server.barchart_url name);
     HttpGet (Server.piechart_url name)] in
  (forall s b p,
     net w (Server.statistics_url name) = Http 200 s ->
     net w (Server.barchart_url name) = Http 200 b ->
     net w (Server.piechart_url name) = Http 200 p ->
     fst (Server.combined q w) = Ok (mkResponse 200 (BCombined s b p)) /\
     effects (snd (Server.combined q w)) = (effects w ++ requests)%list) /\
  (db_up w = true -> Spec.loops_back w ->
   fst (Server.combined q w) = Ok (mkResponse 200 (Spec.composition q w)) /\
   effects (snd (Server.combined q w)) = (effects w ++ requests)%list).
Proof.
  intros Hin Hmonth requests.
  assert (A : forall s b p,
     net w (Server.statistics_url name) = Http 200 s ->
     net w (Server.barchart_url name) = Http 200 b ->
     net w (Server.piechart_url name) = Http 200 p ->
     fst (Server.combined q w) = Ok (mkResponse 200 (BCombined s b p)) /\
     effects (snd (Server.combined q w)) = (effects w ++ requests)%list).
  { intros s b p Hs Hb Hp.
    rewrite (combined_run q w name s b p Hin Hmonth Hs Hb Hp).
    split; [reflexivity|]. cbn [snd effects perform].
    now rewrite <- !app_assoc. }
  split; [exact A|]. intros Hup Hloop.
  destruct (Hloop name Hin) as (Hs & Hb & Hp).
  destruct (answer_is_body q w name Hin Hmonth Hup) as (Es & Eb & Ep).
  rewrite Es in Hs. rewrite Eb in Hb. rewrite Ep in Hp.
  exact (A _ _ _ Hs Hb Hp).
Qed.

Lemma combined_goes_through_the_backend_witness :
  let t := [Sample.march_a; Sample.march_b] in
  let w := Sample.deployed t t in
  In "March" months /\ db_up w = true /\ Spec.loops_back w /\
  fst (Server.combined Sample.march w) =
    Ok (mkResponse 200
      (BCombined (BStats (mkStats 5000 1 1))
                 (BChart [("0-100", 1); ("101-200", 1)])
                 (BChart [("A", 1); ("B", 1)]))).
Proof.
  intros t w.
  assert (Hin : In "March" months) by (simpl; tauto).
  assert (Hloop : Spec.loops_back w).
  { intros name H. simpl in H.
    repeat (destruct H as [<- | H]); try contradiction;
      repeat split; vm_compute; reflexivity. }
  split; [exact Hin|]. split; [reflexivity|]. split; [exact Hloop|].
  destruct (combined_goes_through_the_backend Sample.march w "March"
              Hin eq_refl) as (_ & H).
  destruct (H eq_refl Hloop) as (Hr & _).
  rewrite Hr. reflexivity.
Defined.

(** C1, as stated, fails: the deployed backend holds another table than
    the server at hand, and the combined endpoint returns the charts of
    the backend's table, fetched by three HTTP requests, not those that
    statistics, barChart and pieChart compute in process. *)
Lemma combined_counterexample :
  let w := Sample.deployed [Sample.march_a] [Sample.march_b] in
  fst (Server.combined Sample.march w) =
    Ok (mkResponse 200
      (BCombined (BStats (mkStats 0 0 1))
                 (BChart [("101-200", 1)])
                 (BChart [("B", 1)]))) /\
  Spec.composition Sample.march w =
    BCombined (BStats (mkStats 5000 1 0))
              (BChart [("0-100", 1)])
              (BChart [("A", 1)]) /\
  effects (snd (Server.combined Sample.march w)) =
    [HttpGet (Server.statistics_url "March");
     HttpGet (Server.barchart_url "March");
     HttpGet (Server.piechart_url "March")].
Proof. intros w. repeat split; vm_compute; reflexivity. Qed.

(** ** Start-up seeding *)

Section BootstrapFacts.

Import Server.

Lemma has_id (r : row) (t : list row) :
  existsb (fun r' => id r' =? id r) t = true <-> In (id r) (map id t).
Proof.
  rewrite existsb_exists, in_map_iff. split.
  - intros (r' & Hin & E). apply Z.eqb_eq in E. now exists r'.
  - intros (r' & E & Hin). exists r'. split; [exact Hin|].
    now apply Z.eqb_eq.
Qed.

(** The loop stops at the first item whose [id] is already in the
    table, and the rows inserted before it stay. *)
Lemma insert_each_stops (pre : list row) (x : row) (post : list row)
    (w : world) :
  db_up w = true ->
  NoDup (map id (table w ++ pre)) ->
  In (id x) (map id (table w ++ pre)) ->
  exists e w',
    insert_each (pre ++ x :: post) w = (Throw e, w') /\
    table w' = (table w ++ pre)%list /\
    forall ev, In ev (effects w) -> In ev (effects w').
Proof.
  revert w. induction pre as [|y pre IH]; intros w Hup Hnd Hin.
  - rewrite app_nil_r in *. cbn [app insert_each].
    apply has_id in Hin.
    eexists. eexists. split; [|split].
    + apply bind_throw. apply query_refused; [exact Hup|].
      unfold SQL.insert_row. rewrite Hin. reflexivity.
    + reflexivity.
    + intros ev Hev. cbn. apply in_or_app. now left.
  - cbn [app insert_each].
    assert (Hy : existsb (fun r' => id r' =? id y) (table w) = false).
    { destruct (existsb _ (table w)) eqn:E; [|reflexivity].
      apply has_id in E. rewrite map_app in Hnd. cbn [map] in Hnd.
      apply NoDup_remove_2 in Hnd. elim Hnd.
      apply in_or_app. now left. }
    set (w1 := set_table (table w ++ [y]) (perform (Sql insert_sql) w)).
    destruct (IH w1) as (e & w' & Hrun & Ht & Hev).
    + exact Hup.
    + cbn [w1 set_table table]. now rewrite <- app_assoc.
    + cbn [w1 set_table table]. now rewrite <- app_assoc.
    + exists e, w'. split; [|split].
      * erewrite bind_ok;
          [| apply query_writes;
             [exact Hup | unfold SQL.insert_row; rewrite Hy; reflexivity]].
        exact Hrun.
      * rewrite Ht. cbn [w1 set_table table]. now rewrite <- app_assoc.
      * intros ev H. apply Hev. cbn. apply in_or_app. now left.
Qed.

(** The catch-all of the start-up block: whatever happens inside, the
    block completes. *)
Lemma bootstrap_completes (w : world) : fst (bootstrap w) = Ok tt.
Proof.
  unfold bootstrap, try_catch.
  match goal with |- context [match ?c w with _ => _ end] =>
    destruct (c w) as [[[] | e] w'] end; reflexivity.
Qed.

Lemma axios_get_rejected (url : string) (w w1 : world) (e : string) :
  fst (axios_get url w) = Ok (Throw e) -> net w1 = net w ->
  axios_get url w1 = (Ok (Throw e), perform (HttpGet url) w1).
Proof.
  unfold axios_get. intros H ->.
  destruct (net w url) as [code data | msg]; [|exact (f_equal2 _ H eq_refl)].
  destruct ((200 <=? code) && (code <? 300)); [discriminate H|].
  exact (f_equal2 _ H eq_refl).
Qed.

(** The start-up block on an empty table, up to the request for the
    dataset. *)
Lemma bootstrap_fetches (w : world) (rest : completion body -> M unit) :
  db_up w = true -> table w = [] ->
  exists w1,
    db_up w1 = true /\ table w1 = [] /\ net w1 = net w /\
    (forall h : string -> M unit,
      try_catch
        (get_connection ;;
         console_log "Connected to MySQL" ;;
         pool_query "CREATE TABLE IF NOT EXISTS transactions (...)"
           SQL.create_table ;;
         console_log "Transactions table created or already exists" ;;
         count <- pool_query "SELECT COUNT(*) as count FROM transactions"
                    SQL.count_all ;;
         (if count =? 0 then
            console_log "No data found, seeding database..." ;;
            promise <- axios_get dataset_url ;;
            rest promise
          else
            console_log ("Database already contains " ++ Text.show_Z count
                         ++ " records, skipping seed"))) h w =
      try_catch (promise <- axios_get dataset_url ;; rest promise) h w1).
Proof.
  intros Hup Ht. destruct w as [up t nt ev]. cbn in Hup, Ht. subst up t.
  eexists. split; [|split; [|split]]; cycle 3.
  - intros h. unfold try_catch, bind, get_connection, console_log,
      pool_query. cbn. reflexivity.
  - reflexivity.
  - reflexivity.
  - reflexivity.
Qed.

End BootstrapFacts.

(** C4, as the code has it: the start-up block always completes, so a
    failure inside it is never fatal.  Started on an empty table with
    the database up: if the request for the dataset fails, the failure
    is logged and the table stays empty; if the insertion of an item
    fails, here because its [id] repeats that of an earlier item, the
    failure is logged and the table keeps the rows inserted before that
    item, since the rows are inserted one statement at a time. *)
Theorem bootstrap_failure_logged_not_fatal (w : world) :
  fst (Server.bootstrap w) = Ok tt /\
  (db_up w = true -> table w = [] ->
   let w' := snd (Server.bootstrap w) in
   (forall e, fst (axios_get Server.dataset_url w) = Ok (Throw e) ->
      table w' = [] /\
      In (ConsoleError ("MySQL connection or seeding error: " ++ e))
         (effects w')) /\
   (forall pre x post,
      net w Server.dataset_url = Http 200 (BDataset (pre ++ x :: post)) ->
      NoDup (map id pre) -> In (id x) (map id pre) ->
      table w' = pre /\ Spec.error_logged w')).
Proof.
  split; [apply bootstrap_completes|]. intros Hup Ht w'.
  set (rest := fun promise : completion body =>
    (seedData <- await promise ;;
     items <- Server.seed_items seedData ;;
     Server.insert_each items ;;
     console_log ("Seeded " ++ Text.show_Z (Z.of_nat (List.length items))
                  ++ " documents into transactions table"))%js).
  set (h := fun err : string =>
    console_error ("MySQL connection or seeding error: " ++ err)).
  destruct (bootstrap_fetches w rest Hup Ht) as (w1 & Hup1 & Ht1 & Hn1 & Hrun).
  assert (E : Server.bootstrap w =
              try_catch (promise <- axios_get Server.dataset_url ;;
                         rest promise) h w1) by exact (Hrun h).
  unfold w'. rewrite E. clear E Hrun w'. split.
  - intros e He.
    erewrite try_throw.
    2:{ erewrite bind_ok;
          [| exact (axios_get_rejected _ w w1 e He Hn1)].
        unfold rest. apply bind_throw. reflexivity. }
    cbn. rewrite Ht1. split; [reflexivity|].
    apply in_or_app. right. now left.
  - intros pre x post Hnet Hnd Hin.
    rewrite <- Hn1 in Hnet.
    set (w2 := perform (HttpGet Server.dataset_url) w1).
    destruct (insert_each_stops pre x post w2) as (e & w3 & Hins & Ht3 & _).
    + exact Hup1.
    + cbn [w2 perform table]. now rewrite Ht1.
    + cbn [w2 perform table]. now rewrite Ht1.
    + erewrite try_throw.
      2:{ erewrite bind_ok; [| exact (axios_get_200 _ w1 _ Hnet)].
          unfold rest. cbn [await].
          erewrite bind_ok; [| reflexivity].
          cbn [Server.seed_items].
          erewrite bind_ok; [| reflexivity].
          apply bind_throw. exact Hins. }
      cbn [h console_error snd perform table effects].
      rewrite Ht3. cbn [w2 perform table]. rewrite Ht1.
      split; [reflexivity|].
      eexists. apply in_or_app. right. now left.
Qed.

Lemma bootstrap_failure_logged_not_fatal_witness :
  let w := Sample.world_of [] in
  db_up w = true /\ table w = [] /\
  fst (axios_get Server.dataset_url w) = Ok (Throw "ENOTFOUND") /\
  fst (Server.bootstrap w) = Ok tt /\
  table (snd (Server.bootstrap w)) = [] /\
  In (ConsoleError "MySQL connection or seeding error: ENOTFOUND")
     (effects (snd (Server.bootstrap w))).
Proof.
  intros w.
  destruct (bootstrap_failure_logged_not_fatal w) as (Hok & H).
  destruct (H eq_refl eq_refl) as (Hfetch & _).
  destruct (Hfetch "ENOTFOUND" eq_refl) as (Ht & Hlog).
  repeat split; assumption || reflexivity.
Defined.

(** C4, as stated, fails: the dataset holds three items, the third with
    the [id] of the first; its insertion is refused, the failure is
    logged, start-up goes on, and the table holds the first two items
    instead of being empty. *)
Lemma bootstrap_partial_seed_counterexample :
  let items := [Sample.march_a; Sample.march_b; Sample.march_a] in
  let w' := snd (Server.bootstrap (Sample.unseeded items)) in
  fst (Server.bootstrap (Sample.unseeded items)) = Ok tt /\
  In (ConsoleError
        "MySQL connection or seeding error: Duplicate entry '1' for key 'transactions.PRIMARY'")
     (effects w') /\
  table w' = [Sample.march_a; Sample.march_b] /\
  table w' <> [].
Proof.
  intros items w'. split; [reflexivity|]. split; [|split].
  - vm_compute. tauto.
  - reflexivity.
  - discriminate.
Qed.

(** * Further properties of [server.js] *)

(** ** What the handlers leave alone *)

Section Confinement.

Import Props.

Variable allowed : effect -> Prop.

Lemma follows_refl (w : world) : follows allowed w w.
Proof.
  repeat split. exists []. split; [now rewrite app_nil_r | constructor].
Qed.

Lemma follows_trans (w w1 w2 : world) :
  follows allowed w w1 -> follows allowed w1 w2 -> follows allowed w w2.
Proof.
  intros (Hd & Ht & Hn & m1 & He & Hm1) (Hd' & Ht' & Hn' & m2 & He' & Hm2).
  repeat split; try congruence.
  exists (m1 ++ m2)%list. split.
  - now rewrite He', He, app_assoc.
  - apply Forall_app. now split.
Qed.

Lemma follows_perform (e : effect) (w : world) :
  allowed e -> follows allowed w (perform e w).
Proof.
  intros He. repeat split. exists [e]. split; [reflexivity|].
  now constructor.
Qed.

Lemma confined_ret {A} (a : A) : confined allowed (ret a).
Proof. intros w. apply follows_refl. Qed.

Lemma confined_throw {A} (e : string) : confined allowed (@throw A e).
Proof. intros w. apply follows_refl. Qed.

Lemma confined_bind {A B} (c : M A) (f : A -> M B) :
  confined allowed c -> (forall a, confined allowed (f a)) ->
  confined allowed (bind c f).
Proof.
  intros Hc Hf w. specialize (Hc w). unfold bind.
  destruct (c w) as [[a | e] w1]; cbn [snd] in *; [|exact Hc].
  eapply follows_trans; [exact Hc | apply Hf].
Qed.

Lemma confined_try {A} (c : M A) (h : string -> M A) :
  confined allowed c -> (forall e, confined allowed (h e)) ->
  confined allowed (try_catch c h).
Proof.
  intros Hc Hh w. specialize (Hc w). unfold try_catch.
  destruct (c w) as [[a | e] w1]; cbn [snd] in *; [exact Hc|].
  eapply follows_trans; [exact Hc | apply Hh].
Qed.

Lemma confined_log (line : string) :
  allowed (ConsoleLog line) -> confined allowed (console_log line).
Proof. intros H w. now apply follows_perform. Qed.

Lemma confined_error (line : string) :
  allowed (ConsoleError line) -> confined allowed (console_error line).
Proof. intros H w. now apply follows_perform. Qed.

Lemma confined_await {A} (p : completion A) : confined allowed (await p).
Proof. destruct p; [apply confined_ret | apply confined_throw]. Qed.

Lemma confined_axios (url : string) :
  allowed (HttpGet url) -> confined allowed (axios_get url).
Proof.
  intros H w. unfold axios_get.
  destruct (net w url) as [code data | e];
    [destruct ((200 <=? code) && (code <? 300))|];
    now apply follows_perform.
Qed.

(** A statement that reads: it may fail, it never changes the table. *)
Lemma confined_query {A} (statement : string)
    (run : list row -> completion (A * list row)) :
  allowed (Sql statement) ->
  (forall t a t', run t = Ok (a, t') -> t' = t) ->
  confined allowed (pool_query statement run).
Proof.
  intros H Hrun w. unfold pool_query.
  destruct (db_up w); [|now apply follows_perform].
  destruct (run (table w)) as [[a t'] | e] eqn:E;
    [|now apply follows_perform].
  apply Hrun in E. subst t'.
  destruct (follows_perform (Sql statement) w H) as (Hd & Ht & Hn & Hm).
  repeat split; assumption.
Qed.

End Confinement.

Section ReadOnly.

Import Props Server.

Ltac reads :=
  let t := fresh "t" in let a := fresh "a" in let t' := fresh "t'" in
  let H := fresh "H" in
  intros t a t' H;
  cbv beta delta [SQL.select_rows SQL.count_rows SQL.sum_sold SQL.count_sold
                  SQL.bar_chart SQL.pie_chart] in H;
  repeat match type of H with
         | context [match ?x with _ => _ end] => destruct x
         | context [if ?b then _ else _] => destruct b
         end;
  now inversion H.

Ltac confine :=
  repeat first
    [ apply confined_ret
    | apply confined_throw
    | apply confined_await
    | apply confined_log; exact I
    | apply confined_error; exact I
    | apply confined_axios; exact I
    | apply confined_query; [exact I | reads]
    | apply confined_try
    | apply confined_bind
    | match goal with
      | |- confined _ (match ?x with _ => _ end) => destruct x
      | |- confined _ (if ?b then _ else _) => destruct b
      | |- forall _, _ => intro
      end ].

Lemma list_transactions_confined (q : query) :
  confined not_http (list_transactions q).
Proof. unfold list_transactions. cbv zeta. confine. Qed.

Lemma statistics_confined (q : query) : confined not_http (statistics q).
Proof. unfold statistics. cbv zeta. confine. Qed.

Lemma barchart_confined (q : query) : confined not_http (barchart q).
Proof. unfold barchart. cbv zeta. confine. Qed.

Lemma piechart_confined (q : query) : confined not_http (piechart q).
Proof. unfold piechart. cbv zeta. confine. Qed.

Lemma combined_confined (q : query) : confined not_sql (combined q).
Proof. unfold combined, await_all3. cbv zeta. confine. Qed.

End ReadOnly.

(** X1: whatever the request and whether or not the database answers,
    the listing, statistics, bar chart and pie chart handlers leave
    the table as it was and send no HTTP request: all they add to the
    world are SQL statements and log lines. *)
Theorem query_handlers_only_read (q : query) (w : world) :
  Props.follows Props.not_http w (snd (Server.list_transactions q w)) /\
  Props.follows Props.not_http w (snd (Server.statistics q w)) /\
  Props.follows Props.not_http w (snd (Server.barchart q w)) /\
  Props.follows Props.not_http w (snd (Server.piechart q w)).
Proof.
  split; [|split; [|split]].
  - apply list_transactions_confined.
  - apply statistics_confined.
  - apply barchart_confined.
  - apply piechart_confined.
Qed.

(** X2: whatever the request and the answers of the network, the
    combined handler sends no statement to the store and leaves the
    table as it was: all it adds to the world are HTTP requests and log
    lines. *)
Theorem combined_never_queries_the_store (q : query) (w : world) :
  Props.follows Props.not_sql w (snd (Server.combined q w)).
Proof. apply combined_confined. Qed.

(** ** When the store or the backend fails *)

Section Failures.

Import Props Server.

Lemma query_down {A} (statement : string)
    (run : list row -> completion (A * list row)) (w : world) :
  db_up w = false ->
  pool_query statement run w =
    (Throw "connect ECONNREFUSED", perform (Sql statement) w).
Proof. unfold pool_query. now intros ->. Qed.

Lemma axios_get_cases (url : string) (w : world) :
  (exists e, rejection (net w url) = Some e /\
             axios_get url w = (Ok (Throw e), perform (HttpGet url) w)) \/
  (exists data, rejection (net w url) = None /\
                axios_get url w = (Ok (Ok data), perform (HttpGet url) w)).
Proof.
  unfold axios_get, rejection.
  destruct (net w url) as [code data | e].
  - destruct ((200 <=? code) && (code <? 300)).
    + right. now exists data.
    + left. eexists. split; reflexivity.
  - left. now exists e.
Qed.

End Failures.

(** X3: on a valid month, when the database cannot be reached, the
    listing, statistics, bar chart and pie chart handlers each answer
    500 with their own error message, and log the failure. *)
Theorem store_down_answers_500 (q : query) (w : world) (name : string) :
  In name months ->
  q_month q = Some (QStr name) ->
  db_up w = false ->
  let failed (r : completion response * world) (message : string) :=
    fst r = Ok (mkResponse 500 (BError message None)) /\
    Spec.error_logged (snd r) in
  failed (Server.list_transactions q w) "Error processing transactions" /\
  failed (Server.statistics q w) "Error calculating statistics" /\
  failed (Server.barchart q w) "Error generating bar chart data" /\
  failed (Server.piechart q w) "Error generating pie chart data".
Proof.
  intros Hin Hmonth Hdown failed.
  assert (Hlog : forall (line : string) (w0 : world),
            Spec.error_logged (perform (ConsoleError line) w0)).
  { intros line w0. exists line. cbn. apply in_or_app. right. now left. }
  unfold failed.
  split; [|split; [|split]].
  - unfold Server.list_transactions.
    rewrite Hmonth, (guard_passes _ Hin). cbv zeta.
    erewrite try_throw;
      [| apply bind_throw; apply query_down; exact Hdown].
    split; [reflexivity | apply Hlog].
  - unfold Server.statistics.
    rewrite Hmonth, (guard_passes _ Hin). cbv zeta.
    erewrite try_throw;
      [| apply bind_throw; apply query_down; exact Hdown].
    split; [reflexivity | apply Hlog].
  - unfold Server.barchart.
    rewrite Hmonth, (guard_passes _ Hin). cbv zeta.
    erewrite try_throw;
      [| apply bind_throw; apply query_down; exact Hdown].
    split; [reflexivity | apply Hlog].
  - unfold Server.piechart.
    rewrite Hmonth, (guard_passes _ Hin). cbv zeta.
    erewrite try_throw;
      [| apply bind_throw; apply query_down; exact Hdown].
    split; [reflexivity | apply Hlog].
Qed.

Lemma store_down_answers_500_witness :
  In "March" months /\
  db_up (Props.down [Sample.march_a]) = false /\
  fst (Server.statistics Sample.march (Props.down [Sample.march_a])) =
    Ok (mkResponse 500 (BError "Error calculating statistics" None)) /\
  fst (Server.list_transactions Sample.march (Props.down [Sample.march_a])) =
    Ok (mkResponse 500 (BError "Error processing transactions" None)).
Proof.
  assert (Hin : In "March" months) by (simpl; tauto).
  destruct (store_down_answers_500 Sample.march
              (Props.down [Sample.march_a]) "March" Hin eq_refl eq_refl)
    as ((Hl & _) & (Hs & _) & _).
  repeat split; assumption.
Defined.

(** X4: on a valid month, when at least one of the three requests to
    the backend is rejected (host out of reach, or a status that is not
    2xx), the combined handler still sends the three requests, then
    answers 500 "Error fetching combined data" with the message of a
    rejected request as details, and logs the failure. *)
Theorem combined_failure_answers_500 (q : query) (w : world) (name : string) :
  In name months ->
  q_month q = Some (QStr name) ->
  let outcomes :=
    [Props.rejection (net w (Server.statistics_url name));
     Props.rejection (net w (Server.barchart_url name));
     Props.rejection (net w (Server.piechart_url name))] in
  (exists e, In (Some e) outcomes) ->
  exists e,
    In (Some e) outcomes /\
    fst (Server.combined q w) =
      Ok (mkResponse 500 (BError "Error fetching combined data" (Some e))) /\
    effects (snd (Server.combined q w)) =
      (effects w ++
       [HttpGet (Server.statistics_url name);
        HttpGet (Server.barchart_url name);
        HttpGet (Server.piechart_url name);
        ConsoleError ("Error fetching combined data: " ++ e)])%list.
Proof.
  intros Hin Hmonth outcomes Hrej.
  unfold Server.combined. rewrite Hmonth, (guard_passes _ Hin).
  change (Server.template (Some (QStr name))) with name.
  set (w1 := perform (HttpGet (Server.statistics_url name)) w).
  set (w2 := perform (HttpGet (Server.barchart_url name)) w1).
  destruct (axios_get_cases (Server.statistics_url name) w)
    as [(e1 & R1 & G1) | (d1 & R1 & G1)];
  destruct (axios_get_cases (Server.barchart_url name) w1)
    as [(e2 & R2 & G2) | (d2 & R2 & G2)];
  destruct (axios_get_cases (Server.piechart_url name) w2)
    as [(e3 & R3 & G3) | (d3 & R3 & G3)];
  cbn [w1 w2 perform net] in R2, R3;
  subst outcomes; rewrite R1, R2, R3 in Hrej |- *;
  try (destruct Hrej as (e & [E | [E | [E | []]]]); discriminate E);
  [ exists e1 | exists e1 | exists e1 | exists e1
  | exists e2 | exists e2 | exists e3 ];
  (split; [simpl; tauto|]);
  (erewrite try_throw;
     [| erewrite bind_ok; [| exact G1];
        erewrite bind_ok; [| exact G2];
        erewrite bind_ok; [| exact G3];
        reflexivity]);
  (split; [reflexivity|]);
  cbn [snd effects perform console_error bind ret w1 w2 fst];
  now rewrite <- !app_assoc.
Qed.

Lemma combined_failure_answers_500_witness :
  In "March" months /\
  fst (Server.combined Sample.march (Sample.world_of [Sample.march_a])) =
    Ok (mkResponse 500
          (BError "Error fetching combined data" (Some "ENOTFOUND"))).
Proof.
  assert (Hin : In "March" months) by (simpl; tauto).
  split; [exact Hin|].
  destruct (combined_failure_answers_500 Sample.march
              (Sample.world_of [Sample.march_a]) "March" Hin eq_refl)
    as (e & He & Hr & _).
  - exists "ENOTFOUND". simpl. tauto.
  - rewrite Hr. simpl in He.
    destruct He as [E | [E | [E | []]]]; now injection E as <-.
Defined.

(** ** The listing at the bounds of pagination *)

Section PageBounds.

Lemma firstn_plus {A} (a b : nat) (l : list A) :
  firstn (a + b) l = (firstn a l ++ firstn b (skipn a l))%list.
Proof.
  revert l. induction a as [|a IH]; intros l; [reflexivity|].
  destruct l as [|x l]; simpl.
  - now rewrite firstn_nil.
  - now rewrite IH.
Qed.

(** Cutting a list in slices of [pp] and gluing the first [n] slices
    gives back its first [n * pp] elements. *)
Lemma slices_concat {A} (pp n : nat) (l : list A) :
  List.concat (map (fun i => firstn pp (skipn (i * pp) l)) (seq 0 n)) =
  firstn (n * pp) l.
Proof.
  induction n as [|n IH]; [reflexivity|].
  rewrite seq_S, map_app, concat_app, IH. cbn [map List.concat plus].
  rewrite app_nil_r. replace (S n * pp)%nat with (n * pp + pp)%nat by lia.
  now rewrite firstn_plus.
Qed.

Lemma ceiling_covers (n pp : Z) :
  0 <= n -> 1 <= pp -> n <= Z.max 1 (Spec.ceiling n pp) * pp.
Proof.
  intros Hn Hp. unfold Spec.ceiling.
  pose proof (Z.div_mod (n + pp - 1) pp ltac:(lia)) as E.
  pose proof (Z.mod_pos_bound (n + pp - 1) pp ltac:(lia)) as B.
  nia.
Qed.

End PageBounds.

(** X5: on a valid month and a store that answers, a listing request
    with a [perPage] of at least 1 and page 0 is answered 500: the
    offset is negative and MySQL refuses the statement. *)
Theorem listing_page_zero_refused
    (q : query) (w : world) (name : string) (k : Z) (pp : N) :
  Spec.month_number name k ->
  q_month q = Some (QStr name) ->
  db_up w = true ->
  q_perPage q = Some pp -> (1 <= pp)%N ->
  q_page q = Some 0%N ->
  fst (Server.list_transactions q w) =
    Ok (mkResponse 500 (BError "Error processing transactions" None)).
Proof.
  intros Hname Hmonth Hup Hpp H1 Hpage.
  destruct (list_page_refused q w name k Hname Hmonth Hup pp Hpp)
    as (w' & Hrun & _).
  - rewrite Hpage. lia.
  - now rewrite Hrun.
Qed.

Lemma listing_page_zero_refused_witness :
  Spec.month_number "March" 3 /\
  fst (Server.list_transactions (Sample.march_page 0 10)
         (Sample.world_of Sample.twenty_five)) =
    Ok (mkResponse 500 (BError "Error processing transactions" None)).
Proof.
  assert (Hm : Spec.month_number "March" 3) by (split; [lia | reflexivity]).
  split; [exact Hm|].
  apply (listing_page_zero_refused _ _ "March" 3 10%N Hm);
    try reflexivity.
  vm_compute. discriminate.
Defined.

(** X6: on a valid month and a store that answers, a listing request
    with [perPage] 0 and a page below 2^53 (or none) is answered 200
    with no record; it reports the number of matching records as
    [total], and the [totalPages] handed to [res.send] is [Infinity]
    when there are matching records and 1 when there are none. *)
Theorem listing_per_page_zero
    (q : query) (w : world) (name : string) (k : Z) :
  Spec.month_number name k ->
  q_month q = Some (QStr name) ->
  db_up w = true ->
  q_perPage q = Some 0%N ->
  Spec.safe (Spec.page_number q) ->
  let n := Spec.count (Spec.matching k (q_search q) (table w)) in
  fst (Server.list_transactions q w) =
    Ok (mkResponse 200 (BListing
      (mkListing [] n (Z.of_N (Spec.page_number q)) 0
         (if n =? 0 then JNum 1 else JInfinity)))).
Proof.
  intros Hname Hmonth Hup Hpp _ n.
  assert (Ep : match q_page q with Some p0 => Z.of_N p0 | None => 1 end
               = Z.of_N (Spec.page_number q)).
  { unfold Spec.page_number. now destruct (q_page q). }
  destruct (list_page_run q w name k Hname Hmonth Hup 0%N Hpp)
    as (w' & Hrun & _).
  - rewrite Ep. lia.
  - rewrite Hrun. cbn [fst]. rewrite Ep. fold n.
    change (N.to_nat 0) with 0%nat. cbn [firstn Z.of_N].
    unfold Server.ceil_div. cbn [Z.eqb].
    now destruct (n =? 0).
Qed.

Lemma listing_per_page_zero_witness :
  Spec.month_number "March" 3 /\
  Spec.safe (Spec.page_number (Sample.march_page 1 0)) /\
  fst (Server.list_transactions (Sample.march_page 1 0)
         (Sample.world_of Sample.twenty_five)) =
    Ok (mkResponse 200 (BListing (mkListing [] 25 1 0 JInfinity))).
Proof.
  assert (Hm : Spec.month_number "March" 3) by (split; [lia | reflexivity]).
  split; [exact Hm|]. split; [reflexivity|].
  exact (listing_per_page_zero (Sample.march_page 1 0)
           (Sample.world_of Sample.twenty_five) "March" 3
           Hm eq_refl eq_refl eq_refl eq_refl).
Defined.

(** X7: on a valid month and a store that answers, for a [perPage] of
    at least 1, as soon as [n] reaches [totalPages] (and [n * perPage]
    is below 2^53) each of the pages 1 to [n] is answered 200 with a
    listing, and the records of these pages put end to end are the
    matching records, each once and in the order of the store; a page
    past the last one (its offset below 2^53) is answered 200 with a
    listing that has no record. *)
Theorem listing_pages_tile
    (w : world) (name : string) (k : Z) (search : option string) (pp : N) :
  Spec.month_number name k ->
  db_up w = true ->
  (1 <= pp)%N ->
  let hits := Spec.matching k search (table w) in
  let answer p :=
    fst (Server.list_transactions
           (Props.page_query (Some (QStr name)) search pp p) w) in
  let totalPages := Z.max 1 (Spec.ceiling (Spec.count hits) (Z.of_N pp)) in
  (forall n, totalPages <= Z.of_nat n -> Spec.safe (N.of_nat n * pp) ->
     (forall p, In p (Props.pages n) ->
        exists l, answer p = Ok (mkResponse 200 (BListing l))) /\
     List.concat (map (fun p => Props.listed (answer p)) (Props.pages n))
       = hits) /\
  (forall p, (N.of_nat (Z.to_nat totalPages) < p)%N ->
     Spec.safe pp -> Spec.safe ((p - 1) * pp) ->
     exists l,
       answer p = Ok (mkResponse 200 (BListing l)) /\ transactions l = []).
Proof.
  intros Hname Hup Hpp hits answer totalPages.
  assert (Hpage : forall i : nat,
    exists l,
      answer (N.of_nat (S i)) = Ok (mkResponse 200 (BListing l)) /\
      transactions l =
        firstn (N.to_nat pp) (skipn (i * N.to_nat pp) hits)).
  { intros i. unfold answer.
    destruct (list_page_run
                (Props.page_query (Some (QStr name)) search pp
                   (N.of_nat (S i)))
                w name k Hname eq_refl Hup pp eq_refl) as (w' & Hrun & _).
    - cbn [Props.page_query q_page]. lia.
    - rewrite Hrun. eexists. split; [reflexivity|].
      cbn [transactions Props.page_query q_page q_search].
      fold hits. do 2 f_equal. lia. }
  assert (Hlisted : forall i : nat,
    Props.listed (answer (N.of_nat (S i))) =
    firstn (N.to_nat pp) (skipn (i * N.to_nat pp) hits)).
  { intros i. destruct (Hpage i) as (l & -> & Hl). exact Hl. }
  assert (Hcover : Spec.count hits <= totalPages * Z.of_N pp).
  { apply ceiling_covers; unfold Spec.count; lia. }
  split.
  - intros n Hn _. split.
    + intros p Hp. unfold Props.pages in Hp.
      apply in_map_iff in Hp as (i & <- & Hi). apply in_seq in Hi.
      destruct i as [|i]; [lia|].
      destruct (Hpage i) as (l & Hl & _). now exists l.
    + unfold Props.pages. rewrite <- seq_shift, !map_map.
      rewrite (map_ext _ _ Hlisted), slices_concat.
      apply firstn_all2. unfold Spec.count in Hcover. nia.
  - intros p Hp _ _.
    replace p with (N.of_nat (S (N.to_nat p - 1))) by lia.
    destruct (Hpage (N.to_nat p - 1)%nat) as (l & Hl & Hrows).
    exists l. split; [exact Hl|]. rewrite Hrows.
    rewrite skipn_all2; [now rewrite firstn_nil|].
    unfold Spec.count in Hcover. nia.
Qed.

Lemma listing_pages_tile_witness :
  Spec.month_number "March" 3 /\
  Spec.safe (N.of_nat 3 * 10) /\
  List.concat
    (map (fun p =>
            Props.listed (fst (Server.list_transactions
              (Props.page_query (Some (QStr "March")) None 10 p)
              (Sample.world_of Sample.twenty_five))))
         [1%N; 2%N; 3%N]) =
  map Sample.numbered (seq 1 25).
Proof.
  assert (Hm : Spec.month_number "March" 3) by (split; [lia | reflexivity]).
  split; [exact Hm|]. split; [reflexivity|].
  destruct (listing_pages_tile (Sample.world_of Sample.twenty_five)
              "March" 3 None 10%N Hm eq_refl) as (Htile & _).
  - vm_compute. discriminate.
  - assert (H3 : Z.max 1 (Spec.ceiling
                   (Spec.count (Spec.matching 3 None
                      (table (Sample.world_of Sample.twenty_five))))
                   (Z.of_N 10)) <= Z.of_nat 3)
      by (vm_compute; discriminate).
    destruct (Htile 3%nat H3 eq_refl) as (_ & Hcat).
    exact Hcat.
Defined.

(** ** The bar chart: counts, order and whole prices *)

Lemma barchart_counts_every_record_witness :
  Spec.month_number "March" 3 /\
  exists c,
    fst (Server.barchart Sample.march
           (Sample.world_of [Sample.march_a; Sample.june; Sample.march_b])) =
      Ok (mkResponse 200 (BChart c)) /\
    Spec.counts c = 2.
Proof.
  assert (Hm : Spec.month_number "March" 3) by (split; [lia | reflexivity]).
  split; [exact Hm|].
  destruct (barchart_counts_every_record Sample.march
              (Sample.world_of [Sample.march_a; Sample.june; Sample.march_b])
              "March" 3 Hm eq_refl eq_refl) as (c & Hc & Hsum & _).
  exists c. split; [exact Hc | exact Hsum].
Defined.

Section BarChartOrder.

Import Text SQL Spec Props.

Lemma coll_leb_total (a b : string) :
  coll_leb a b = false -> coll_leb b a = true.
Proof.
  unfold coll_leb. intros H.
  destruct (String.leb_total (fold_case a) (fold_case b)) as [E | E];
    [congruence | exact E].
Qed.

Lemma insert_sorted_sorted (g : string * Z) (c : chart) :
  Sorted by_label c -> Sorted by_label (insert_sorted g c).
Proof.
  induction c as [|h c IH]; intros Hs; simpl.
  - repeat constructor.
  - destruct (coll_leb (fst g) (fst h)) eqn:E.
    + constructor; [exact Hs|]. now constructor.
    + apply Sorted_inv in Hs as [Hs Hh].
      constructor; [now apply IH|].
      apply coll_leb_total in E.
      destruct c as [|h2 c]; simpl; [now constructor|].
      destruct (coll_leb (fst g) (fst h2)); constructor;
        [exact E | now apply HdRel_inv in Hh].
Qed.

Lemma order_by_id_sorted (c : chart) : Sorted by_label (order_by_id c).
Proof.
  induction c as [|g c IH]; simpl; [constructor|].
  now apply insert_sorted_sorted.
Qed.

Lemma distinct_NoDup (l : list string) : distinct l -> NoDup l.
Proof.
  induction l as [|x l IH]; simpl; intros Hd; constructor.
  - intros Hin. destruct Hd as [Hx _].
    specialize (Hx x Hin). now rewrite coll_eqb_refl in Hx.
  - apply IH. tauto.
Qed.

(** Among the ten labels the order of the collation is the order of
    the ranges. *)
Lemma rank_of_ranges (a b : string) :
  In a ranges -> In b ranges -> coll_leb a b = true -> a <> b ->
  (rank a < rank b)%nat.
Proof.
  intros Ha Hb. simpl in Ha, Hb.
  repeat (destruct Ha as [<- | Ha]); try contradiction;
    repeat (destruct Hb as [<- | Hb]); try contradiction;
    intros Hle Hne;
    first [ discriminate Hle | now elim Hne | vm_compute; lia ].
Qed.

Lemma sorted_by_rank (c : chart) :
  Sorted by_label c ->
  Forall (fun g => In (fst g) ranges) c ->
  NoDup (labels c) ->
  StronglySorted by_rank c.
Proof.
  intros Hs Hin Hnd. apply Sorted_StronglySorted.
  - intros x y z. unfold by_rank. lia.
  - induction c as [|g c IH]; [constructor|].
    apply Sorted_inv in Hs as [Hs Hh].
    apply Forall_cons_iff in Hin as [Hg Hin].
    cbn [labels map] in Hnd. apply NoDup_cons_iff in Hnd as [Hng Hnd].
    constructor; [now apply IH|].
    destruct c as [|h c]; constructor.
    apply HdRel_inv in Hh. apply Forall_cons_iff in Hin as [Hh' _].
    apply rank_of_ranges; try assumption.
    intros E. apply Hng. rewrite E. now left.
Qed.

End BarChartOrder.

(** X9: on a valid month and a store that answers, the pairs of the bar
    chart come in the order of the ten ranges, from ['0-100'] to
    ['901-above'], and no label comes twice. *)
Theorem barchart_in_range_order
    (q : query) (w : world) (name : string) (k : Z) :
  Spec.month_number name k ->
  q_month q = Some (QStr name) ->
  db_up w = true ->
  exists c,
    fst (Server.barchart q w) = Ok (mkResponse 200 (BChart c)) /\
    StronglySorted Props.by_rank c.
Proof.
  intros Hname Hmonth Hup.
  destruct (barchart_run q w name k Hname Hmonth Hup) as (w' & Hrun & _).
  rewrite Hrun. eexists. split; [reflexivity|].
  set (keys := map SQL.price_range (filter (SQL.in_month k) (table w))).
  destruct (group_count_spec keys) as (Hd & _ & Hpair & _).
  cbv zeta in Hd, Hpair.
  pose proof (order_by_id_perm (SQL.group_count keys)) as Hperm.
  apply sorted_by_rank.
  - apply order_by_id_sorted.
  - apply Forall_forall. intros [label n] Hin.
    apply (Permutation_in _ Hperm) in Hin.
    destruct (Hpair label n Hin) as (Hl & _).
    apply in_map_iff in Hl as (r & <- & _). apply price_range_in_ranges.
  - apply (Permutation_NoDup (Permutation_map fst (Permutation_sym Hperm))).
    now apply distinct_NoDup.
Qed.

Lemma barchart_in_range_order_witness :
  Spec.month_number "March" 3 /\
  fst (Server.barchart Sample.march
         (Sample.world_of [Sample.march_b; Sample.march_a])) =
    Ok (mkResponse 200 (BChart [("0-100", 1); ("101-200", 1)])) /\
  exists c,
    fst (Server.barchart Sample.march
           (Sample.world_of [Sample.march_b; Sample.march_a])) =
      Ok (mkResponse 200 (BChart c)) /\
    StronglySorted Props.by_rank c.
Proof.
  assert (Hm : Spec.month_number "March" 3) by (split; [lia | reflexivity]).
  split; [exact Hm|]. split; [reflexivity|].
  exact (barchart_in_range_order Sample.march
           (Sample.world_of [Sample.march_b; Sample.march_a]) "March" 3
           Hm eq_refl eq_refl).
Defined.

(** X10: a record whose price is a whole, non-negative number of units
    is labelled by the [CASE] expression with the range of whole
    numbers that holds that number: ['0-100'] up to 100, ['101-200']
    from 101 to 200, and so on, ['901-above'] over 900. *)
Theorem price_range_of_whole_price (r : row) (units : Z) :
  price r = units * 100 -> 0 <= units ->
  SQL.price_range r = Props.range_of units.
Proof.
  intros Hp Hu. unfold SQL.price_range, Props.range_of.
  repeat match goal with
         | |- context [if SQL.between ?lo ?hi r then _ else _] =>
             let E := fresh "E" in
             destruct (SQL.between lo hi r) eqn:E;
             [ apply between_spec in E
             | apply not_true_iff_false in E; rewrite between_spec in E ]
         end;
    repeat match goal with
           | |- context [if ?a <=? ?b then _ else _] =>
               destruct (Z.leb_spec a b)
           end;
    first [ reflexivity | exfalso; lia ].
Qed.

Lemma price_range_of_whole_price_witness :
  price Sample.march_b = 150 * 100 /\
  SQL.price_range Sample.march_b = "101-200".
Proof.
  split; [reflexivity|].
  exact (price_range_of_whole_price Sample.march_b 150 eq_refl
           ltac:(discriminate)).
Defined.

(** ** The search and letter case *)

Section SearchCase.

Import Text.

Lemma lower_idem (c : ascii) : lower (lower c) = lower c.
Proof. destruct c as [[] [] [] [] [] [] [] []]; reflexivity. Qed.

Lemma lower_meta (c : ascii) :
  is_percent (lower c) = is_percent c /\
  is_underscore (lower c) = is_underscore c /\
  is_backslash (lower c) = is_backslash c.
Proof. destruct c as [[] [] [] [] [] [] [] []]; repeat split; reflexivity. Qed.

Lemma lower_space (c : ascii) : is_space (lower c) = is_space c.
Proof. destruct c as [[] [] [] [] [] [] [] []]; reflexivity. Qed.

Lemma ceq_lower (p c : ascii) : ceq (lower p) c = ceq p c.
Proof. unfold ceq. now rewrite lower_idem. Qed.

Lemma like_percent_fold (pat pat' : list ascii) :
  (forall s, like_chars pat' s = like_chars pat s) ->
  forall s, like_chars ("%"%char :: pat') s = like_chars ("%"%char :: pat) s.
Proof.
  intros H s. induction s as [|c s IH].
  - now rewrite !like_percent_step, H.
  - now rewrite (like_percent_step pat'), (like_percent_step pat), H, IH.
Qed.

(** A pattern matches what its lower-case spelling matches. *)
Lemma like_fold_pattern (n : nat) (pat : list ascii) :
  (List.length pat <= n)%nat ->
  forall s, like_chars (map lower pat) s = like_chars pat s.
Proof.
  revert pat. induction n as [|n IH]; intros pat Hn s.
  - destruct pat; [reflexivity | simpl in Hn; lia].
  - destruct pat as [|p pat]; [reflexivity|].
    simpl in Hn.
    destruct (lower_meta p) as (Ep & Eu & Eb).
    destruct (is_percent p) eqn:Hp.
    + apply Ascii.eqb_eq in Hp. subst p.
      change (map lower ("%"%char :: pat)) with ("%"%char :: map lower pat).
      apply like_percent_fold. intros s'. apply IH. lia.
    + cbn [map like_chars]. rewrite Ep, Eu, Eb, Hp.
      destruct (is_underscore p).
      { destruct s; [reflexivity|]. apply IH. lia. }
      destruct (is_backslash p).
      { destruct pat as [|q pat]; cbn [map].
        - destruct s; [reflexivity|]. now rewrite ceq_lower.
        - destruct s; [reflexivity|]. rewrite ceq_lower.
          f_equal. apply IH. simpl in Hn. lia. }
      destruct s; [reflexivity|]. rewrite ceq_lower. f_equal.
      apply IH. lia.
Qed.

Lemma like_same_fold (pat1 pat2 : list ascii) (s : list ascii) :
  map lower pat1 = map lower pat2 -> like_chars pat1 s = like_chars pat2 s.
Proof.
  intros H.
  rewrite <- (like_fold_pattern _ pat1 (le_n _)),
          <- (like_fold_pattern _ pat2 (le_n _)).
  now rewrite H.
Qed.

Lemma drop_space_blank (l : list ascii) :
  drop_space l = [] <-> forallb is_space l = true.
Proof.
  induction l as [|c l IH]; simpl; [tauto|].
  destruct (is_space c); simpl; [exact IH|].
  split; discriminate.
Qed.

Lemma drop_space_keeps (l : list ascii) :
  forallb is_space l = false ->
  exists c l', drop_space l = c :: l' /\ is_space c = false.
Proof.
  induction l as [|c l IH]; simpl; [discriminate|].
  destruct (is_space c) eqn:E; simpl; [exact IH|].
  intros _. now exists c, l.
Qed.

(** A string is empty once trimmed exactly when it is made of white
    space. *)
Lemma trim_blank (s : string) :
  (trim s =? "")%string = forallb is_space (chars s).
Proof.
  unfold trim. destruct (forallb is_space (chars s)) eqn:E.
  - apply drop_space_blank in E. now rewrite E.
  - apply drop_space_keeps in E as (c & l & -> & Hc).
    assert (H : drop_space (rev (c :: l)) <> []).
    { rewrite drop_space_blank. simpl rev. rewrite forallb_app.
      simpl. rewrite Hc. rewrite andb_false_r. discriminate. }
    destruct (drop_space (rev (c :: l))) as [|d l']; [congruence|].
    simpl rev. destruct (rev l'); reflexivity.
Qed.

Lemma fold_case_chars (s1 s2 : string) :
  fold_case s1 = fold_case s2 -> map lower (chars s1) = map lower (chars s2).
Proof.
  unfold fold_case. intros H.
  apply (f_equal list_ascii_of_string) in H.
  now rewrite !list_ascii_of_string_of_list_ascii in H.
Qed.

Lemma blank_lower (l : list ascii) :
  forallb is_space (map lower l) = forallb is_space l.
Proof.
  induction l as [|c l IH]; [reflexivity|].
  simpl. now rewrite lower_space, IH.
Qed.

Lemma pattern_same_fold (s1 s2 : string) (k : Z) (r : row) :
  fold_case s1 = fold_case s2 ->
  SQL.where_ k (Spec.pattern_of (Some s1)) r =
  SQL.where_ k (Spec.pattern_of (Some s2)) r.
Proof.
  intros H. apply fold_case_chars in H.
  unfold SQL.where_, Spec.pattern_of. rewrite !trim_blank.
  assert (Hb : forallb is_space (chars s1) = forallb is_space (chars s2)).
  { now rewrite <- (blank_lower (chars s1)), <- (blank_lower (chars s2)), H. }
  rewrite Hb. destruct (forallb is_space (chars s2)); [reflexivity|].
  f_equal. unfold SQL.matches, like.
  assert (Hpat : map lower (chars ("%" ++ s1 ++ "%")) =
                 map lower (chars ("%" ++ s2 ++ "%"))).
  { rewrite !chars_app, !map_app. now rewrite H. }
  now rewrite !(like_same_fold _ _ _ Hpat).
Qed.

Lemma matching_same_fold (k : Z) (s1 s2 : string) (t : list row) :
  fold_case s1 = fold_case s2 ->
  Spec.matching k (Some s1) t = Spec.matching k (Some s2) t.
Proof.
  intros H. unfold Spec.matching. apply filter_ext. intros r.
  now apply pattern_same_fold.
Qed.

End SearchCase.

(** X11: on a valid month and a store that answers, the listing does
    not depend on the letter case of the search string: two requests
    that differ only by the case of the letters of [search] get the
    same answer. *)
Theorem search_ignores_letter_case
    (w : world) (name : string) (k : Z) (s1 s2 : string)
    (pg pp : option N) :
  Spec.month_number name k ->
  db_up w = true ->
  Text.fold_case s1 = Text.fold_case s2 ->
  fst (Server.list_transactions
         (mkQuery (Some (QStr name)) (Some s1) pg pp) w) =
  fst (Server.list_transactions
         (mkQuery (Some (QStr name)) (Some s2) pg pp) w).
Proof.
  intros Hname Hup Hfold.
  set (q1 := mkQuery (Some (QStr name)) (Some s1) pg pp).
  set (q2 := mkQuery (Some (QStr name)) (Some s2) pg pp).
  pose proof (matching_same_fold k s1 s2 (table w) Hfold) as Hm.
  destruct pp as [pp|].
  - set (p := match pg with Some p => Z.of_N p | None => 1 end).
    destruct (Z_lt_le_dec ((p - 1) * Z.of_N pp) 0) as [Hneg | Hpos].
    + destruct (list_page_refused q1 w name k Hname eq_refl Hup pp eq_refl
                  Hneg) as (w1 & -> & _).
      destruct (list_page_refused q2 w name k Hname eq_refl Hup pp eq_refl
                  Hneg) as (w2 & -> & _).
      reflexivity.
    + destruct (list_page_run q1 w name k Hname eq_refl Hup pp eq_refl
                  Hpos) as (w1 & -> & _).
      destruct (list_page_run q2 w name k Hname eq_refl Hup pp eq_refl
                  Hpos) as (w2 & -> & _).
      cbn [fst q1 q2 q_search q_page]. now rewrite Hm.
  - destruct (list_all_run q1 w name k Hname eq_refl Hup eq_refl)
      as (w1 & -> & _).
    destruct (list_all_run q2 w name k Hname eq_refl Hup eq_refl)
      as (w2 & -> & _).
    cbn [fst q1 q2 q_search]. now rewrite Hm.
Qed.

Lemma search_ignores_letter_case_witness :
  Spec.month_number "March" 3 /\
  Text.fold_case "ALPHA" = Text.fold_case "alpha" /\
  fst (Server.list_transactions (Sample.march_search "ALPHA")
         (Sample.world_of [Sample.march_a; Sample.march_b])) =
  fst (Server.list_transactions (Sample.march_search "alpha")
         (Sample.world_of [Sample.march_a; Sample.march_b])).
Proof.
  assert (Hm : Spec.month_number "March" 3) by (split; [lia | reflexivity]).
  split; [exact Hm|]. split; [reflexivity|].
  exact (search_ignores_letter_case
           (Sample.world_of [Sample.march_a; Sample.march_b])
           "March" 3 "ALPHA" "alpha" None None Hm eq_refl eq_refl).
Defined.

(** ** Seeding: the start-up block and the re-seeding endpoint *)

Section Seeding.

Import Server.

(** With distinct [id]s, none of them in the table, every item is
    inserted, in order. *)
Lemma insert_each_all (items : list row) (w : world) :
  db_up w = true ->
  NoDup (map id (table w ++ items)) ->
  exists w',
    insert_each items w = (Ok tt, w') /\
    table w' = (table w ++ items)%list /\
    db_up w' = true /\ net w' = net w /\
    effects w' =
      (effects w ++ map (fun _ => Sql insert_sql) items)%list.
Proof.
  revert w. induction items as [|y items IH]; intros w Hup Hnd.
  - exists w. cbn. now rewrite !app_nil_r.
  - assert (Hy : existsb (fun r' => id r' =? id y) (table w) = false).
    { destruct (existsb _ (table w)) eqn:E; [|reflexivity].
      apply has_id in E. rewrite map_app in Hnd. cbn [map] in Hnd.
      apply NoDup_remove_2 in Hnd. elim Hnd.
      apply in_or_app. now left. }
    set (w1 := set_table (table w ++ [y]) (perform (Sql insert_sql) w)).
    destruct (IH w1) as (w' & Hrun & Ht & Hd & Hn & He).
    + exact Hup.
    + cbn [w1 set_table table]. now rewrite <- app_assoc.
    + exists w'. split; [|split; [|split; [|split]]].
      * cbn [insert_each].
        erewrite bind_ok;
          [| apply query_writes;
             [exact Hup | unfold SQL.insert_row; rewrite Hy; reflexivity]].
        exact Hrun.
      * rewrite Ht. cbn [w1 set_table table]. now rewrite <- app_assoc.
      * exact Hd.
      * exact Hn.
      * rewrite He. cbn [w1 set_table perform effects map].
        now rewrite <- app_assoc.
Qed.

Lemma get_connection_up (w : world) :
  db_up w = true -> get_connection w = (Ok tt, w).
Proof. unfold get_connection. now intros ->. Qed.

Lemma count_not_zero (t : list row) :
  t <> [] -> (Z.of_nat (List.length t) =? 0) = false.
Proof. intros H. destruct t; [congruence|]. apply Z.eqb_neq. simpl. lia. Qed.

End Seeding.

(** X12: started with the database up on a table that already has
    rows, the start-up block creates the table if need be, counts the
    rows and stops there: it fetches nothing, inserts nothing, logs no
    error, and leaves the table as it was. *)
Theorem bootstrap_skips_seeded_table (w : world) :
  db_up w = true ->
  table w <> [] ->
  fst (Server.bootstrap w) = Ok tt /\
  table (snd (Server.bootstrap w)) = table w /\
  effects (snd (Server.bootstrap w)) =
    (effects w ++
     [ConsoleLog "Connected to MySQL";
      Sql "CREATE TABLE IF NOT EXISTS transactions (...)";
      ConsoleLog "Transactions table created or already exists";
      Sql "SELECT COUNT(*) as count FROM transactions";
      ConsoleLog ("Database already contains "
                  ++ Text.show_Z (Spec.count (table w))
                  ++ " records, skipping seed")])%list.
Proof.
  intros Hup Hne.
  assert (E : exists w', Server.bootstrap w = (Ok tt, w') /\
    table w' = table w /\
    effects w' =
      (((((effects w ++ [ConsoleLog "Connected to MySQL"]) ++
          [Sql "CREATE TABLE IF NOT EXISTS transactions (...)"]) ++
         [ConsoleLog "Transactions table created or already exists"]) ++
        [Sql "SELECT COUNT(*) as count FROM transactions"]) ++
       [ConsoleLog ("Database already contains "
                    ++ Text.show_Z (Spec.count (table w))
                    ++ " records, skipping seed")])%list).
  { eexists. split.
    - unfold Server.bootstrap. apply try_ok.
      erewrite bind_ok; [| apply get_connection_up; exact Hup].
      erewrite bind_ok; [| reflexivity].
      erewrite bind_ok; [| apply query_reads; [exact Hup | reflexivity]].
      erewrite bind_ok; [| reflexivity].
      erewrite bind_ok; [| apply query_reads; [exact Hup | reflexivity]].
      cbn [table perform]. rewrite (count_not_zero _ Hne). reflexivity.
    - split; reflexivity. }
  destruct E as (w' & -> & Ht & He). cbn [fst snd].
  split; [reflexivity|]. split; [exact Ht|].
  rewrite He. now rewrite <- !app_assoc.
Qed.

Lemma bootstrap_skips_seeded_table_witness :
  table (snd (Server.bootstrap (Sample.world_of [Sample.march_a]))) =
    [Sample.march_a] /\
  effects (snd (Server.bootstrap (Sample.world_of [Sample.march_a]))) =
    [ConsoleLog "Connected to MySQL";
     Sql "CREATE TABLE IF NOT EXISTS transactions (...)";
     ConsoleLog "Transactions table created or already exists";
     Sql "SELECT COUNT(*) as count FROM transactions";
     ConsoleLog "Database already contains 1 records, skipping seed"].
Proof.
  destruct (bootstrap_skips_seeded_table (Sample.world_of [Sample.march_a])
              eq_refl ltac:(discriminate)) as (_ & Ht & He).
  split; [exact Ht | exact He].
Defined.

(** X13: started with the database up on an empty table, when the
    dataset arrives and its items have distinct [id]s, the start-up
    block inserts every item, in the order of the dataset, one
    statement each, and logs no error. *)
Theorem bootstrap_seeds_empty_table (w : world) (items : list row) :
  db_up w = true ->
  table w = [] ->
  net w Server.dataset_url = Http 200 (BDataset items) ->
  NoDup (map id items) ->
  fst (Server.bootstrap w) = Ok tt /\
  table (snd (Server.bootstrap w)) = items /\
  effects (snd (Server.bootstrap w)) =
    (effects w ++
     [ConsoleLog "Connected to MySQL";
      Sql "CREATE TABLE IF NOT EXISTS transactions (...)";
      ConsoleLog "Transactions table created or already exists";
      Sql "SELECT COUNT(*) as count FROM transactions";
      ConsoleLog "No data found, seeding database...";
      HttpGet Server.dataset_url] ++
     map (fun _ => Sql Server.insert_sql) items ++
     [ConsoleLog ("Seeded " ++ Text.show_Z (Spec.count items)
                  ++ " documents into transactions table")])%list.
Proof.
  intros Hup Ht Hnet Hnd.
  set (w6 :=
    perform (HttpGet Server.dataset_url)
      (perform (ConsoleLog "No data found, seeding database...")
         (perform (Sql "SELECT COUNT(*) as count FROM transactions")
            (perform
               (ConsoleLog "Transactions table created or already exists")
               (perform (Sql "CREATE TABLE IF NOT EXISTS transactions (...)")
                  (perform (ConsoleLog "Connected to MySQL") w)))))).
  destruct (insert_each_all items w6) as (w7 & Hins & Ht7 & _ & _ & He7).
  { exact Hup. }
  { cbn [w6 perform table]. now rewrite Ht. }
  assert (E : Server.bootstrap w =
    (Ok tt,
     perform (ConsoleLog ("Seeded " ++ Text.show_Z (Spec.count items)
                          ++ " documents into transactions table")) w7)).
  { unfold Server.bootstrap. apply try_ok.
    erewrite bind_ok; [| apply get_connection_up; exact Hup].
    erewrite bind_ok; [| reflexivity].
    erewrite bind_ok; [| apply query_reads; [exact Hup | reflexivity]].
    erewrite bind_ok; [| reflexivity].
    erewrite bind_ok; [| apply query_reads; [exact Hup | reflexivity]].
    cbn [table perform]. rewrite Ht. cbn [List.length Z.of_nat Z.eqb].
    erewrite bind_ok; [| reflexivity].
    erewrite bind_ok; [| apply axios_get_200; exact Hnet].
    cbn [await]. erewrite bind_ok; [| reflexivity].
    cbn [Server.seed_items]. erewrite bind_ok; [| reflexivity].
    erewrite bind_ok; [| exact Hins].
    reflexivity. }
  rewrite E. cbn [fst snd perform table effects].
  split; [reflexivity|]. split.
  - rewrite Ht7. cbn [w6 perform table]. now rewrite Ht.
  - rewrite He7. cbn [w6 perform effects].
    now rewrite <- !app_assoc.
Qed.

Lemma bootstrap_seeds_empty_table_witness :
  NoDup (map id [Sample.march_a; Sample.march_b]) /\
  table (snd (Server.bootstrap
                (Sample.unseeded [Sample.march_a; Sample.march_b]))) =
    [Sample.march_a; Sample.march_b].
Proof.
  assert (Hnd : NoDup (map id [Sample.march_a; Sample.march_b])).
  { repeat constructor; simpl; intuition discriminate. }
  split; [exact Hnd|].
  destruct (bootstrap_seeds_empty_table
              (Sample.unseeded [Sample.march_a; Sample.march_b])
              [Sample.march_a; Sample.march_b]
              eq_refl eq_refl eq_refl Hnd) as (_ & Ht & _).
  exact Ht.
Defined.

(** X14: started while the database cannot be reached, the start-up
    block only logs one error: it sends no statement and no request,
    and it completes. *)
Theorem bootstrap_database_down (w : world) :
  db_up w = false ->
  exists line,
    Server.bootstrap w = (Ok tt, perform (ConsoleError line) w).
Proof.
  intros Hdown. eexists. unfold Server.bootstrap.
  erewrite try_throw.
  2:{ apply bind_throw. unfold get_connection. rewrite Hdown. reflexivity. }
  reflexivity.
Qed.

Lemma bootstrap_database_down_witness :
  db_up (Props.down []) = false /\
  exists line,
    Server.bootstrap (Props.down []) =
      (Ok tt, perform (ConsoleError line) (Props.down [])).
Proof.
  split; [reflexivity|].
  exact (bootstrap_database_down (Props.down []) eq_refl).
Defined.

Section Reseeding.

Import Server.

(** A successful run of the re-seeding endpoint, with the world it
    leaves. *)
Lemma init_run (w : world) (items : list row) :
  db_up w = true ->
  net w dataset_url = Http 200 (BDataset items) ->
  NoDup (map id items) ->
  exists w',
    init w =
      (Ok (200, Initialized "Database initialized successfully"
                  (Spec.count items)), w') /\
    table w' = items /\ db_up w' = true /\ net w' = net w /\
    forall e, In e (effects w') -> Props.is_error e -> In e (effects w).
Proof.
  intros Hup Hnet Hnd.
  set (w5 :=
    perform (ConsoleLog "Inserting seed data...")
      (set_table []
         (perform (Sql "TRUNCATE TABLE transactions")
            (perform (ConsoleLog "Clearing existing data...")
               (perform (HttpGet dataset_url)
                  (perform (ConsoleLog "Fetching data from third-party API...")
                     w)))))).
  destruct (insert_each_all items w5) as (w6 & Hins & Ht6 & Hd6 & Hn6 & He6).
  { exact Hup. }
  { exact Hnd. }
  eexists. split; [|split; [|split; [|split]]].
  - unfold init. apply try_ok.
    erewrite bind_ok; [| reflexivity].
    erewrite bind_ok; [| apply axios_get_200; exact Hnet].
    cbn [await]. erewrite bind_ok; [| reflexivity].
    erewrite bind_ok; [| reflexivity].
    erewrite bind_ok; [| apply query_writes; [exact Hup | reflexivity]].
    erewrite bind_ok; [| reflexivity].
    cbn [seed_items]. erewrite bind_ok; [| reflexivity].
    erewrite bind_ok; [| exact Hins].
    erewrite bind_ok; [| reflexivity].
    erewrite bind_ok; [| apply query_reads; [exact Hd6 | reflexivity]].
    cbn [table perform]. rewrite Ht6. cbn [w5 perform set_table table app].
    erewrite bind_ok; [| reflexivity].
    reflexivity.
  - cbn [table perform]. exact Ht6.
  - cbn [db_up perform]. exact Hd6.
  - cbn [net perform]. exact Hn6.
  - intros e Hin Herr. cbn [effects perform] in Hin. rewrite He6 in Hin.
    cbn [w5 perform set_table effects] in Hin.
    repeat (apply in_app_or in Hin as [Hin | Hin]);
      try (destruct Hin as [<- | []]; now destruct Herr).
    + exact Hin.
    + apply in_map_iff in Hin as (? & <- & _). destruct Herr.
Qed.

End Reseeding.

(** X15: with the database up, when the dataset arrives and its items
    have distinct [id]s, the re-seeding endpoint answers 200 with the
    number of items as [documentCount], and the table holds exactly the
    items of the dataset, in their order, whatever it held before; no
    error is logged. *)
Theorem init_replaces_the_table (w : world) (items : list row) :
  db_up w = true ->
  net w Server.dataset_url = Http 200 (BDataset items) ->
  NoDup (map id items) ->
  fst (Server.init w) =
    Ok (200, Server.Initialized "Database initialized successfully"
               (Spec.count items)) /\
  table (snd (Server.init w)) = items /\
  forall e, In e (effects (snd (Server.init w))) -> Props.is_error e ->
    In e (effects w).
Proof.
  intros Hup Hnet Hnd.
  destruct (init_run w items Hup Hnet Hnd) as (w' & -> & Ht & _ & _ & He).
  split; [reflexivity|]. split; [exact Ht | exact He].
Qed.

Lemma init_replaces_the_table_witness :
  NoDup (map id [Sample.march_a; Sample.march_b]) /\
  fst (Server.init (Props.reseedable [Sample.june]
                      [Sample.march_a; Sample.march_b])) =
    Ok (200, Server.Initialized "Database initialized successfully" 2) /\
  table (snd (Server.init (Props.reseedable [Sample.june]
                             [Sample.march_a; Sample.march_b]))) =
    [Sample.march_a; Sample.march_b].
Proof.
  assert (Hnd : NoDup (map id [Sample.march_a; Sample.march_b])).
  { repeat constructor; simpl; intuition discriminate. }
  split; [exact Hnd|].
  destruct (init_replaces_the_table
              (Props.reseedable [Sample.june] [Sample.march_a; Sample.march_b])
              [Sample.march_a; Sample.march_b] eq_refl eq_refl Hnd)
    as (Hr & Ht & _).
  split; [exact Hr | exact Ht].
Defined.

(** X16: when the request for the dataset is rejected, the re-seeding
    endpoint answers 500 "Failed to initialize database" with the
    rejection message as details; it has not reached the [TRUNCATE]: no
    statement is sent and the table is as it was. *)
Theorem init_fetch_failure_keeps_the_table (w : world) (e : string) :
  Props.rejection (net w Server.dataset_url) = Some e ->
  Server.init w =
    (Ok (500, Server.InitFailed "Failed to initialize database" e),
     perform (ConsoleError ("Error initializing database: " ++ e))
       (perform (HttpGet Server.dataset_url)
          (perform (ConsoleLog "Fetching data from third-party API...") w))).
Proof.
  intros Hrej.
  set (w1 := perform (ConsoleLog "Fetching data from third-party API...") w).
  destruct (axios_get_cases Server.dataset_url w1)
    as [(e' & R & G) | (d & R & G)];
    cbn [w1 perform net] in R; rewrite Hrej in R; [|discriminate R].
  injection R as <-.
  unfold Server.init. erewrite try_throw.
  2:{ erewrite bind_ok; [| reflexivity].
      erewrite bind_ok; [| exact G].
      apply bind_throw. reflexivity. }
  reflexivity.
Qed.

Lemma init_fetch_failure_keeps_the_table_witness :
  Props.rejection (net (Sample.world_of [Sample.march_a]) Server.dataset_url)
    = Some "ENOTFOUND" /\
  fst (Server.init (Sample.world_of [Sample.march_a])) =
    Ok (500, Server.InitFailed "Failed to initialize database" "ENOTFOUND") /\
  table (snd (Server.init (Sample.world_of [Sample.march_a]))) =
    [Sample.march_a].
Proof.
  split; [reflexivity|].
  rewrite (init_fetch_failure_keeps_the_table
             (Sample.world_of [Sample.march_a]) "ENOTFOUND" eq_refl).
  split; reflexivity.
Defined.

(** X17: with the database up, when the dataset arrives and an item
    repeats the [id] of an earlier item, the re-seeding endpoint
    answers 500 "Failed to initialize database"; the rows the table
    held before are gone, and it holds the items that precede the
    repeated one. *)
Theorem init_insert_failure_loses_old_rows
    (w : world) (pre : list row) (x : row) (post : list row) :
  db_up w = true ->
  net w Server.dataset_url = Http 200 (BDataset (pre ++ x :: post)) ->
  NoDup (map id pre) -> In (id x) (map id pre) ->
  (exists details,
     fst (Server.init w) =
       Ok (500, Server.InitFailed "Failed to initialize database" details)) /\
  table (snd (Server.init w)) = pre.
Proof.
  intros Hup Hnet Hnd Hin.
  set (w5 :=
    perform (ConsoleLog "Inserting seed data...")
      (set_table []
         (perform (Sql "TRUNCATE TABLE transactions")
            (perform (ConsoleLog "Clearing existing data...")
               (perform (HttpGet Server.dataset_url)
                  (perform (ConsoleLog "Fetching data from third-party API...")
                     w)))))).
  destruct (insert_each_stops pre x post w5) as (e & w6 & Hins & Ht6 & _).
  { exact Hup. }
  { exact Hnd. }
  { exact Hin. }
  assert (E : Server.init w =
    (Ok (500, Server.InitFailed "Failed to initialize database" e),
     perform (ConsoleError ("Error initializing database: " ++ e)) w6)).
  { unfold Server.init. erewrite try_throw.
    2:{ erewrite bind_ok; [| reflexivity].
        erewrite bind_ok; [| apply axios_get_200; exact Hnet].
        cbn [await]. erewrite bind_ok; [| reflexivity].
        erewrite bind_ok; [| reflexivity].
        erewrite bind_ok; [| apply query_writes; [exact Hup | reflexivity]].
        erewrite bind_ok; [| reflexivity].
        cbn [Server.seed_items]. erewrite bind_ok; [| reflexivity].
        apply bind_throw. exact Hins. }
    reflexivity. }
  rewrite E. split; [now exists e|].
  cbn [snd perform table]. exact Ht6.
Qed.

Lemma init_insert_failure_loses_old_rows_witness :
  table (snd (Server.init
    (Props.reseedable [Sample.june]
       [Sample.march_a; Sample.march_b; Sample.march_a]))) =
  [Sample.march_a; Sample.march_b].
Proof.
  destruct (init_insert_failure_loses_old_rows
              (Props.reseedable [Sample.june]
                 [Sample.march_a; Sample.march_b; Sample.march_a])
              [Sample.march_a; Sample.march_b] Sample.march_a []
              eq_refl eq_refl) as (_ & Ht).
  - repeat constructor; simpl; intuition discriminate.
  - simpl. tauto.
  - exact Ht.
Defined.

(** X18: when the database cannot be reached, the re-seeding endpoint
    answers 500 "Failed to initialize database" even though the
    dataset arrived, and the table is as it was. *)
Theorem init_database_down (w : world) (data : body) :
  db_up w = false ->
  net w Server.dataset_url = Http 200 data ->
  (exists details,
     fst (Server.init w) =
       Ok (500, Server.InitFailed "Failed to initialize database" details)) /\
  table (snd (Server.init w)) = table w /\
  Spec.error_logged (snd (Server.init w)).
Proof.
  intros Hdown Hnet.
  unfold Server.init. erewrite try_throw.
  2:{ erewrite bind_ok; [| reflexivity].
      erewrite bind_ok; [| apply axios_get_200; exact Hnet].
      cbn [await]. erewrite bind_ok; [| reflexivity].
      erewrite bind_ok; [| reflexivity].
      apply bind_throw. apply query_down. exact Hdown. }
  split; [eexists; reflexivity|]. split; [reflexivity|].
  eexists. cbn. apply in_or_app. right. now left.
Qed.

Lemma init_database_down_witness :
  (exists details,
     fst (Server.init
            (mkWorld false [Sample.june]
               (fun _ => Http 200 (BDataset [Sample.march_a])) [])) =
       Ok (500, Server.InitFailed "Failed to initialize database" details)) /\
  table (snd (Server.init
         (mkWorld false [Sample.june]
            (fun _ => Http 200 (BDataset [Sample.march_a])) []))) =
    [Sample.june].
Proof.
  destruct (init_database_down
              (mkWorld false [Sample.june]
                 (fun _ => Http 200 (BDataset [Sample.march_a])) [])
              (BDataset [Sample.march_a]) eq_refl eq_refl) as (Hr & Ht & _).
  split; [exact Hr | exact Ht].
Defined.

(** ** A month without records, and the handlers after a re-seed *)

(** X19: on a valid month of which the table has no record, and a
    store that answers, every query handler answers 200 with an empty
    result: the listing has no record, total 0 and totalPages 1 (not
    0), without [perPage] and with a [perPage] of at least 1 on a
    1-indexed page (named or not; [perPage] and the offset below
    2^53); the statistics are all 0; both charts are empty. *)
Theorem month_without_records
    (q : query) (w : world) (name : string) (k : Z) :
  Spec.month_number name k ->
  q_month q = Some (QStr name) ->
  db_up w = true ->
  Spec.of_month k (table w) = [] ->
  let p := Spec.page_number q in
  (q_perPage q = None ->
   fst (Server.list_transactions q w) =
     Ok (mkResponse 200 (BListing (mkListing [] 0 1 0 (JNum 1))))) /\
  (forall pp, q_perPage q = Some pp ->
     (1 <= pp)%N -> (1 <= p)%N ->
     Spec.safe pp -> Spec.safe ((p - 1) * pp) ->
   fst (Server.list_transactions q w) =
     Ok (mkResponse 200 (BListing
       (mkListing [] 0 (Z.of_N p) (Z.of_N pp) (JNum 1))))) /\
  fst (Server.statistics q w) =
    Ok (mkResponse 200 (BStats (mkStats 0 0 0))) /\
  fst (Server.barchart q w) = Ok (mkResponse 200 (BChart [])) /\
  fst (Server.piechart q w) = Ok (mkResponse 200 (BChart [])).
Proof.
  intros Hname Hmonth Hup Hnone p.
  assert (Hhits : Spec.matching k (q_search q) (table w) = []).
  { rewrite matching_of_month, Hnone. reflexivity. }
  assert (Hsold : forall flag, filter (SQL.sold_is flag k) (table w) = []).
  { intros flag. rewrite sold_rows, Hnone. reflexivity. }
  assert (Hin : filter (SQL.in_month k) (table w) = []) by exact Hnone.
  assert (Ep : match q_page q with Some p0 => Z.of_N p0 | None => 1 end
               = Z.of_N p).
  { unfold p, Spec.page_number. now destruct (q_page q). }
  split; [|split; [|split; [|split]]].
  - intros Hpp.
    destruct (list_all_run q w name k Hname Hmonth Hup Hpp) as (w' & -> & _).
    now rewrite Hhits.
  - intros pp Hpp H1 Hp _ _.
    destruct (list_page_run q w name k Hname Hmonth Hup pp Hpp)
      as (w' & -> & _).
    + rewrite Ep. apply Z.mul_nonneg_nonneg; lia.
    + rewrite Hhits, Ep. cbn [fst]. rewrite skipn_nil, firstn_nil.
      unfold Spec.count. cbn [List.length Z.of_nat].
      rewrite (ceil_div_ceiling 0 (Z.of_N pp)) by lia.
      unfold Spec.ceiling.
      rewrite Z.div_small by lia. reflexivity.
  - destruct (statistics_run q w name k Hname Hmonth Hup) as (w' & -> & _).
    now rewrite !Hsold.
  - destruct (barchart_run q w name k Hname Hmonth Hup) as (w' & -> & _).
    now rewrite Hin.
  - destruct (piechart_run q w name k Hname Hmonth Hup) as (w' & -> & _).
    now rewrite Hin.
Qed.

Lemma month_without_records_witness :
  Spec.month_number "March" 3 /\
  Spec.of_month 3 (table (Sample.world_of [Sample.june])) = [] /\
  fst (Server.statistics Sample.march (Sample.world_of [Sample.june])) =
    Ok (mkResponse 200 (BStats (mkStats 0 0 0))) /\
  fst (Server.list_transactions (Sample.march_page 1 10)
         (Sample.world_of [Sample.june])) =
    Ok (mkResponse 200 (BListing (mkListing [] 0 1 10 (JNum 1)))) /\
  fst (Server.list_transactions
         (mkQuery (Some (QStr "March")) None None (Some 10%N))
         (Sample.world_of [Sample.june])) =
    Ok (mkResponse 200 (BListing (mkListing [] 0 1 10 (JNum 1)))).
Proof.
  assert (Hm : Spec.month_number "March" 3) by (split; [lia | reflexivity]).
  split; [exact Hm|]. split; [reflexivity|].
  split; [|split].
  - destruct (month_without_records Sample.march
                (Sample.world_of [Sample.june]) "March" 3
                Hm eq_refl eq_refl eq_refl) as (_ & _ & Hs & _).
    exact Hs.
  - destruct (month_without_records (Sample.march_page 1 10)
                (Sample.world_of [Sample.june]) "March" 3
                Hm eq_refl eq_refl eq_refl) as (_ & Hp & _).
    apply (Hp 10%N eq_refl); try reflexivity; vm_compute; discriminate.
  - destruct (month_without_records
                (mkQuery (Some (QStr "March")) None None (Some 10%N))
                (Sample.world_of [Sample.june]) "March" 3
                Hm eq_refl eq_refl eq_refl) as (_ & Hp & _).
    apply (Hp 10%N eq_refl); try reflexivity; vm_compute; discriminate.
Defined.

(** X20: after a successful re-seed the listing answers from the new
    dataset: on a valid month, without [perPage], it returns the items
    of the dataset that are of the month and pass the search, whatever
    the table held before the re-seed. *)
Theorem listing_after_init
    (q : query) (w : world) (items : list row) (name : string) (k : Z) :
  db_up w = true ->
  net w Server.dataset_url = Http 200 (BDataset items) ->
  NoDup (map id items) ->
  Spec.month_number name k ->
  q_month q = Some (QStr name) ->
  q_perPage q = None ->
  let hits := Spec.matching k (q_search q) items in
  fst (Server.list_transactions q (snd (Server.init w))) =
    Ok (mkResponse 200 (BListing
      (mkListing hits (Spec.count hits) 1 (Spec.count hits) (JNum 1)))).
Proof.
  intros Hup Hnet Hnd Hname Hmonth Hpp hits.
  destruct (init_run w items Hup Hnet Hnd) as (w' & -> & Ht & Hd & _).
  cbn [snd].
  destruct (list_all_run q w' name k Hname Hmonth Hd Hpp) as (w2 & -> & _).
  rewrite Ht. reflexivity.
Qed.

Lemma listing_after_init_witness :
  NoDup (map id [Sample.march_a; Sample.june]) /\
  Spec.month_number "March" 3 /\
  fst (Server.list_transactions Sample.march
         (snd (Server.init
                 (Props.reseedable [Sample.march_b]
                    [Sample.march_a; Sample.june])))) =
    Ok (mkResponse 200 (BListing (mkListing [Sample.march_a] 1 1 1 (JNum 1)))).
Proof.
  assert (Hnd : NoDup (map id [Sample.march_a; Sample.june])).
  { repeat constructor; simpl; intuition discriminate. }
  assert (Hm : Spec.month_number "March" 3) by (split; [lia | reflexivity]).
  split; [exact Hnd|]. split; [exact Hm|].
  exact (listing_after_init Sample.march
           (Props.reseedable [Sample.march_b] [Sample.march_a; Sample.june])
           [Sample.march_a; Sample.june] "March" 3
           eq_refl eq_refl Hnd Hm eq_refl eq_refl).
Defined.

(** X21: re-seeding twice in a row is the same as re-seeding once: with
    the database up, the same dataset arriving both times and distinct
    [id]s, the second call gives the same answer as the first and
    leaves the same table. *)
Theorem init_twice (w : world) (items : list row) :
  db_up w = true ->
  net w Server.dataset_url = Http 200 (BDataset items) ->
  NoDup (map id items) ->
  fst (Server.init (snd (Server.init w))) = fst (Server.init w) /\
  table (snd (Server.init (snd (Server.init w)))) =
    table (snd (Server.init w)).
Proof.
  intros Hup Hnet Hnd.
  destruct (init_run w items Hup Hnet Hnd) as (w1 & -> & Ht1 & Hd1 & Hn1 & _).
  cbn [fst snd]. rewrite <- Hn1 in Hnet.
  destruct (init_run w1 items Hd1 Hnet Hnd) as (w2 & -> & Ht2 & _).
  cbn [fst snd]. split; [reflexivity | congruence].
Qed.

Lemma init_twice_witness :
  NoDup (map id [Sample.march_a; Sample.march_b]) /\
  table (snd (Server.init (snd (Server.init
    (Props.reseedable [Sample.june] [Sample.march_a; Sample.march_b]))))) =
  [Sample.march_a; Sample.march_b].
Proof.
  assert (Hnd : NoDup (map id [Sample.march_a; Sample.march_b])).
  { repeat constructor; simpl; intuition discriminate. }
  split; [exact Hnd|].
  destruct (init_twice
              (Props.reseedable [Sample.june] [Sample.march_a; Sample.march_b])
              [Sample.march_a; Sample.march_b] eq_refl eq_refl Hnd)
    as (_ & Ht).
  rewrite Ht. reflexivity.
Defined.
